(** * SIP calculator and fund scoring of arthasetu-website

    Shallow embedding of [SIPCalculator] (the SIP engine: forward and
    reverse future-value formulas, the round-trip check and the
    projection table) and of [Utils.scoreFund], with the properties the
    specification states about them; then of the other numeric helpers
    of [Utils], of its risk-profile table and email pattern, and of
    [AuthManager] (accounts, sessions and saved data over
    [localStorage]), with properties read off the code.

    ** Number model

    A JavaScript Number is modelled by [number]: an exact rational, or one
    of the three IEEE-754 special values [+Infinity], [-Infinity] and
    [NaN].  The arithmetic follows IEEE-754 on the special values
    (division by zero does not raise: [0/0] is [NaN], [x/0] an infinity).
    A finite result is the exact rational: the rounding of each binary64
    operation, overflow, underflow and the sign of a zero are not
    represented.  The statements about numbers are therefore of three kinds:

    - statements that rest on the special values, on comparisons and on
      the structure of the code, which hold for every input;
    - statements about whole numbers below 2^53, where binary64
      arithmetic is exact, with the bound among the hypotheses;
    - statements with a margin (a difference of at least 1 before
      rounding, a tolerance of 1), restricted by their hypotheses to a
      range of amounts, terms and rates on which the rounding errors of
      the binary64 computation are far below the margin: the range
      leaves out the rates so small that [1 + monthlyRate] loses them
      and the inputs whose future value overflows.

    No statement depends on the last digits of an unrounded value, and
    none compares two orders of evaluation of the same formula.

    [years] and the sampling interval are integers in [SIPCalculator],
    as in the specification's data model, so that [Math.pow] is only
    ever taken at an integer exponent.  The loop counter of
    [generateProjectionTable] is also modelled on binary64 numbers
    ([Binary64], over the primitive floats), where a fractional, [NaN]
    or infinite interval can be given. *)

From Stdlib Require Import ZArith QArith Qround Qabs Qpower Lia Lqa.
From Stdlib Require Import List String Ascii DecimalString.
From Stdlib Require Import Setoid Morphisms.
From Stdlib Require Import Floats.
Import ListNotations.

Set Implicit Arguments.

(* ================================================================== *)
(** ** JavaScript numbers *)
(* ================================================================== *)

Module JSNumber.

Inductive number : Type :=
  | Fin (q : Q)
  | PInf
  | NInf
  | NaN.

Definition ofZ (z : Z) : number := Fin (inject_Z z).
Arguments ofZ z%_Z.

(** Sign test used by the special cases of [*] and [/]. *)
Inductive sign : Type := Neg | Zero | Pos.

Definition Qsign (q : Q) : sign :=
  match Qcompare q 0 with
  | Lt => Neg
  | Eq => Zero
  | Gt => Pos
  end.

Definition signOf (x : number) : option sign :=
  match x with
  | Fin q => Some (Qsign q)
  | PInf => Some Pos
  | NInf => Some Neg
  | NaN => None
  end.

Definition infOf (s : sign) : number :=
  match s with
  | Pos => PInf
  | Neg => NInf
  | Zero => NaN
  end.

Definition signMul (a b : sign) : sign :=
  match a, b with
  | Zero, _ | _, Zero => Zero
  | Pos, Pos | Neg, Neg => Pos
  | Pos, Neg | Neg, Pos => Neg
  end.

Definition neg (x : number) : number :=
  match x with
  | Fin q => Fin (- q)
  | PInf => NInf
  | NInf => PInf
  | NaN => NaN
  end.

(** [x + y]: [Infinity + -Infinity] is [NaN]. *)
Definition add (x y : number) : number :=
  match x, y with
  | NaN, _ | _, NaN => NaN
  | Fin a, Fin b => Fin (a + b)
  | PInf, NInf | NInf, PInf => NaN
  | PInf, _ | _, PInf => PInf
  | NInf, _ | _, NInf => NInf
  end.

Definition sub (x y : number) : number := add x (neg y).

(** [x * y]: [Infinity * 0] is [NaN]. *)
Definition mul (x y : number) : number :=
  match x, y with
  | NaN, _ | _, NaN => NaN
  | Fin a, Fin b => Fin (a * b)
  | _, _ =>
      match signOf x, signOf y with
      | Some sx, Some sy => infOf (signMul sx sy)
      | _, _ => NaN
      end
  end.

(** [x / y]: [0/0] and [Infinity/Infinity] are [NaN]; a non-zero finite
    number over zero is the infinity of the dividend's sign. *)
Definition div (x y : number) : number :=
  match x, y with
  | NaN, _ | _, NaN => NaN
  | Fin a, Fin b =>
      match Qsign b with
      | Zero => infOf (Qsign a)
      | _ => Fin (a / b)
      end
  | Fin _, _ => Fin 0
  | _, Fin b =>
      match signOf x, Qsign b with
      | Some sx, Zero => infOf sx
      | Some sx, sb => infOf (signMul sx sb)
      | None, _ => NaN
      end
  | _, _ => NaN
  end.

(** [x < y], [x <= y], [x >= y]: every comparison with [NaN] is false. *)
Definition ltb (x y : number) : bool :=
  match x, y with
  | NaN, _ | _, NaN => false
  | Fin a, Fin b => match Qcompare a b with Lt => true | _ => false end
  | NInf, NInf => false
  | NInf, _ => true
  | _, PInf => match x with PInf => false | _ => true end
  | _, _ => false
  end.

Definition leb (x y : number) : bool :=
  match x, y with
  | NaN, _ | _, NaN => false
  | Fin a, Fin b => Qle_bool a b
  | NInf, _ => true
  | _, PInf => true
  | _, _ => false
  end.

Definition geb (x y : number) : bool := leb y x.

(** [Math.abs]. *)
Definition Math_abs (x : number) : number :=
  match x with
  | Fin q => Fin (Qabs q)
  | PInf | NInf => PInf
  | NaN => NaN
  end.

(** [Math.round]: the nearest integer, a tie going to the larger one;
    [NaN] and the infinities are returned unchanged. *)
Definition roundHalfUp (q : Q) : Z := Qfloor (q + (1 # 2)).

Definition Math_round (x : number) : number :=
  match x with
  | Fin q => ofZ (roundHalfUp q)
  | _ => x
  end.

(** [Math.pow(base, exponent)] at an integer exponent, with the special
    cases of ECMAScript's Number::exponentiate: a zero exponent gives 1
    whatever the base, even [NaN]. *)
Definition Math_pow (base : number) (exponent : Z) : number :=
  if (exponent =? 0)%Z then ofZ 1
  else
    match base with
    | NaN => NaN
    | PInf => if (0 <? exponent)%Z then PInf else Fin 0
    | NInf =>
        if (0 <? exponent)%Z
        then (if Z.odd exponent then NInf else PInf)
        else Fin 0
    | Fin b =>
        match Qsign b with
        | Zero => if (0 <? exponent)%Z then Fin 0 else PInf
        | _ => Fin (b ^ exponent)
        end
    end.

(** *** Number.prototype.toFixed(1) *)

Definition digitsOfZ (z : Z) : string := NilZero.string_of_uint (N.to_uint (Z.to_N z)).

(** Exponent notation of Number::toString, reached from [toFixed] at
    magnitudes of 10^21 and more: the leading digits of the integer part
    (17 at most, trailing zeros dropped; JavaScript prints the shortest
    prefix that identifies the binary64 value). *)
Fixpoint dropTrailingZeros (s : string) : string :=
  match s with
  | EmptyString => EmptyString
  | String c rest =>
      match dropTrailingZeros rest with
      | EmptyString => if Ascii.eqb c "0"%char then EmptyString else String c EmptyString
      | rest' => String c rest'
      end
  end.

Definition exponentString (q : Q) : string :=
  let all := digitsOfZ (Qfloor q) in
  let e := Z.of_nat (String.length all - 1) in
  let lead := substring 0 1 all in
  let frac := dropTrailingZeros (substring 1 16 all) in
  (lead ++ match frac with
           | EmptyString => EmptyString
           | _ => "." ++ frac
           end ++ "e+" ++ digitsOfZ e)%string.

(** Positional notation with one decimal of a non-negative [q] below
    10^21: [n] is the integer nearest to [10 * q], the larger one on a
    tie. *)
Definition fixedString (q : Q) : string :=
  let n := Qfloor (q * 10 + (1 # 2)) in
  (digitsOfZ (n / 10) ++ "." ++ digitsOfZ (n mod 10))%string.

Definition toFixed1 (x : number) : string :=
  match x with
  | NaN => "NaN"%string
  | PInf => "Infinity"%string
  | NInf => "-Infinity"%string
  | Fin q =>
      let s := match Qsign q with Neg => "-"%string | _ => EmptyString end in
      let a := Qabs q in
      let m := if Qle_bool (inject_Z (10 ^ 21)) a
               then exponentString a
               else fixedString a in
      (s ++ m)%string
  end.

Declare Scope num_scope.
Delimit Scope num_scope with num.
Bind Scope num_scope with number.
Notation "x + y" := (add x y) : num_scope.
Notation "x - y" := (sub x y) : num_scope.
Notation "x * y" := (mul x y) : num_scope.
Notation "x / y" := (div x y) : num_scope.
Notation "x <? y" := (ltb x y) : num_scope.
Notation "x <=? y" := (leb x y) : num_scope.
Notation "x >=? y" := (geb x y) (at level 70) : num_scope.

End JSNumber.
Import JSNumber.

(* ================================================================== *)
(** ** unnamed/part_000: class SIPCalculator *)
(* ================================================================== *)

Module SIPCalculator.

Module ForwardResult.
Record t : Type := mk {
  futureValue : number;
  principal : number;
  gains : number;
  gainPercent : string;
  monthlyRate : number;
  months : Z
}.
End ForwardResult.

Local Open Scope num_scope.

(** [static calculateForwardSIP(monthlyAmount, years, annualRate)] *)
Definition calculateForwardSIP (monthlyAmount : number) (years : Z)
    (annualRate : number) : ForwardResult.t :=
  let monthlyRate := annualRate / ofZ 12 / ofZ 100 in
  let months := (years * 12)%Z in
  let principal := monthlyAmount * ofZ months in
  let numerator := Math_pow (ofZ 1 + monthlyRate) months - ofZ 1 in
  let futureValue :=
    monthlyAmount * (numerator / monthlyRate) * (ofZ 1 + monthlyRate) in
  let gains := futureValue - principal in
  let gainPercent := (gains / futureValue) * ofZ 100 in
  {| ForwardResult.futureValue := Math_round futureValue;
     ForwardResult.principal := Math_round principal;
     ForwardResult.gains := Math_round gains;
     ForwardResult.gainPercent := toFixed1 gainPercent;
     ForwardResult.monthlyRate := monthlyRate;
     ForwardResult.months := months |}.

Module ReverseResult.
Record t : Type := mk {
  monthlySIP : number;
  totalInvested : number;
  totalGains : number;
  gainPercent : string;
  monthlyRate : number;
  months : Z
}.
End ReverseResult.

(** [static calculateReverseSIP(goalAmount, years, annualRate)] *)
Definition calculateReverseSIP (goalAmount : number) (years : Z)
    (annualRate : number) : ReverseResult.t :=
  let monthlyRate := annualRate / ofZ 12 / ofZ 100 in
  let months := (years * 12)%Z in
  let numerator := Math_pow (ofZ 1 + monthlyRate) months - ofZ 1 in
  let divisor := (numerator / monthlyRate) * (ofZ 1 + monthlyRate) in
  let monthlySIP := goalAmount / divisor in
  let totalInvested := monthlySIP * ofZ months in
  let totalGains := goalAmount - totalInvested in
  let gainPercent := (totalGains / goalAmount) * ofZ 100 in
  {| ReverseResult.monthlySIP := Math_round monthlySIP;
     ReverseResult.totalInvested := Math_round totalInvested;
     ReverseResult.totalGains := Math_round totalGains;
     ReverseResult.gainPercent := toFixed1 gainPercent;
     ReverseResult.monthlyRate := monthlyRate;
     ReverseResult.months := months |}.

Module Verification.
Record t : Type := mk {
  forward : ForwardResult.t;
  reverse : ReverseResult.t;
  isAccurate : bool;
  variance : number
}.
End Verification.

(** [static verifyCalculation(monthlyAmount, years, annualRate)] *)
Definition verifyCalculation (monthlyAmount : number) (years : Z)
    (annualRate : number) : Verification.t :=
  let forward := calculateForwardSIP monthlyAmount years annualRate in
  let reverse :=
    calculateReverseSIP (ForwardResult.futureValue forward) years annualRate in
  let match_ :=
    Math_abs (ReverseResult.monthlySIP reverse - monthlyAmount) <? ofZ 1 in
  {| Verification.forward := forward;
     Verification.reverse := reverse;
     Verification.isAccurate := match_;
     Verification.variance :=
       Math_abs (ReverseResult.monthlySIP reverse - monthlyAmount) |}.

Module ProjectionRow.
Record t : Type := mk {
  month : Z;
  year : string;
  principal : number;
  gains : number;
  futureValue : number
}.
End ProjectionRow.

(** The body of the [for] loop of [generateProjectionTable]: the row
    pushed for the sampled month [m]. *)
Definition projectionRow (monthlyAmount monthlyRate : number) (m : Z)
    : ProjectionRow.t :=
  let numerator := Math_pow (ofZ 1 + monthlyRate) m - ofZ 1 in
  let fv := monthlyAmount * (numerator / monthlyRate) * (ofZ 1 + monthlyRate) in
  let principal := monthlyAmount * ofZ m in
  let gains := fv - principal in
  {| ProjectionRow.month := m;
     ProjectionRow.year := toFixed1 (ofZ m / ofZ 12);
     ProjectionRow.principal := Math_round principal;
     ProjectionRow.gains := Math_round gains;
     ProjectionRow.futureValue := Math_round fv |}.

(** [for (let m = ...; m <= months; m += interval) { table.push(row) }]
    from the loop variable's current value [m], with the table built so
    far.  One unit of [fuel] is one evaluation of the loop condition;
    [None] means the loop is still running when the fuel is spent. *)
Fixpoint projectionLoop (fuel : nat) (monthlyAmount monthlyRate : number)
    (months interval m : Z) (table : list ProjectionRow.t)
    : option (list ProjectionRow.t) :=
  match fuel with
  | O => None
  | S fuel' =>
      if (m <=? months)%Z
      then projectionLoop fuel' monthlyAmount monthlyRate months interval
             (m + interval)%Z
             (table ++ [projectionRow monthlyAmount monthlyRate m])
      else Some table
  end.

(** [static generateProjectionTable(monthlyAmount, years, annualRate,
    interval = 12)]; [None] for [interval] is the omitted argument. *)
Definition generateProjectionTable (fuel : nat) (monthlyAmount : number)
    (years : Z) (annualRate : number) (interval : option Z)
    : option (list ProjectionRow.t) :=
  let interval := match interval with Some i => i | None => 12%Z end in
  let monthlyRate := annualRate / ofZ 12 / ofZ 100 in
  let months := (years * 12)%Z in
  let table := [] in
  projectionLoop fuel monthlyAmount monthlyRate months interval interval table.

End SIPCalculator.

(* ================================================================== *)
(** ** unnamed/part_000: the loop counter in binary64 *)
(* ================================================================== *)

Module Binary64.

(** [for (let m = ...; m <= months; m += interval) { table.push(row) }]
    with [m], [months] and [interval] binary64 numbers: [<=] and [+] are
    the IEEE-754 operations, so [m] accumulates the rounding of each
    addition and a comparison with [NaN] is false.  The result lists the
    values of [m] for which the body runs, that is the [month] fields of
    the rows pushed, in order.  One unit of [fuel] is one evaluation of
    the loop condition. *)
Fixpoint projectionLoop (fuel : nat) (months interval m : float)
    (sampled : list float) : option (list float) :=
  match fuel with
  | O => None
  | S fuel' =>
      if PrimFloat.leb m months
      then projectionLoop fuel' months interval (PrimFloat.add m interval)
             (sampled ++ [m])
      else Some sampled
  end.

(** The [month] fields of [generateProjectionTable(monthlyAmount, years,
    annualRate, interval)]: [months = years * 12] and the loop starts at
    [m = interval]. *)
Definition projectionMonths (fuel : nat) (years interval : float)
    : option (list float) :=
  let months := PrimFloat.mul years 12%float in
  projectionLoop fuel months interval interval [].

End Binary64.

(* ================================================================== *)
(** ** arthasetu-website/utils.js: class Utils *)
(* ================================================================== *)

Module Utils.

Local Open Scope num_scope.

Module SIPFuture.
Record t : Type := mk {
  futureValue : number;
  principal : number;
  gains : number
}.
End SIPFuture.

(** [static calculateSIPFuture(sip, years, annualRate)] *)
Definition calculateSIPFuture (sip : number) (years : Z) (annualRate : number)
    : SIPFuture.t :=
  let monthlyRate := annualRate / ofZ 100 / ofZ 12 in
  let months := (years * 12)%Z in
  let fv :=
    sip * (Math_pow (ofZ 1 + monthlyRate) months - ofZ 1) / monthlyRate
      * (ofZ 1 + monthlyRate) in
  {| SIPFuture.futureValue := fv;
     SIPFuture.principal := sip * ofZ months;
     SIPFuture.gains := fv - (sip * ofZ months) |}.

Module Metrics.
Record t : Type := mk {
  er : number;
  alpha : number;
  sharpe : number;
  cagr : number
}.
End Metrics.

(** [static scoreFund(metrics)] *)
Definition scoreFund (metrics : Metrics.t) : number :=
  let score := ofZ 0 in
  let score :=
    if Metrics.er metrics <=? Fin (1 # 2) then score + ofZ 25
    else if Metrics.er metrics <=? ofZ 1 then score + ofZ 20
    else if Metrics.er metrics <=? Fin (3 # 2) then score + ofZ 15
    else score + ofZ 10 in
  let score :=
    if Metrics.alpha metrics >=? ofZ 3 then score + ofZ 25
    else if Metrics.alpha metrics >=? ofZ 2 then score + ofZ 20
    else if Metrics.alpha metrics >=? ofZ 1 then score + ofZ 15
    else if Metrics.alpha metrics >=? ofZ 0 then score + ofZ 10
    else score + ofZ 5 in
  let score :=
    if Metrics.sharpe metrics >=? ofZ 2 then score + ofZ 25
    else if Metrics.sharpe metrics >=? Fin (3 # 2) then score + ofZ 20
    else if Metrics.sharpe metrics >=? ofZ 1 then score + ofZ 15
    else score + ofZ 10 in
  let score :=
    if Metrics.cagr metrics >=? ofZ 18 then score + ofZ 25
    else if Metrics.cagr metrics >=? ofZ 15 then score + ofZ 20
    else if Metrics.cagr metrics >=? ofZ 12 then score + ofZ 15
    else score + ofZ 10 in
  Math_round score.

(** [static calculateCI(principal, rate, years)] *)
Definition calculateCI (principal rate : number) (years : Z) : number :=
  let rateDecimal := rate / ofZ 100 in
  principal * Math_pow (ofZ 1 + rateDecimal) years.

Module SIPReverse.
Record t : Type := mk {
  monthlySIP : number;
  totalInvested : number;
  gains : number
}.
End SIPReverse.

(** [static calculateSIPReverse(goal, years, annualRate)] *)
Definition calculateSIPReverse (goal : number) (years : Z) (annualRate : number)
    : SIPReverse.t :=
  let monthlyRate := annualRate / ofZ 100 / ofZ 12 in
  let months := (years * 12)%Z in
  let sip :=
    goal / ((Math_pow (ofZ 1 + monthlyRate) months - ofZ 1) / monthlyRate
            * (ofZ 1 + monthlyRate)) in
  {| SIPReverse.monthlySIP := sip;
     SIPReverse.totalInvested := sip * ofZ months;
     SIPReverse.gains := goal - (sip * ofZ months) |}.

Module Holding.
Record t : Type := mk {
  quantity : number;
  price : number
}.
End Holding.

(** [static calculatePortfolioValue(holdings)]:
    [holdings.reduce((sum, holding) => sum + holding.quantity * holding.price, 0)] *)
Definition calculatePortfolioValue (holdings : list Holding.t) : number :=
  fold_left
    (fun sum holding => sum + (Holding.quantity holding * Holding.price holding))
    holdings (ofZ 0).

(** [static getScoreCategory(score)] *)
Definition getScoreCategory (score : number) : string :=
  if score >=? ofZ 80 then "Excellent"%string
  else if score >=? ofZ 60 then "Good"%string
  else if score >=? ofZ 40 then "Average"%string
  else "Poor"%string.

(** [static getScoreColor(score)] *)
Definition getScoreColor (score : number) : string :=
  if score >=? ofZ 80 then "score-high"%string
  else if score >=? ofZ 60 then "score-mid"%string
  else "score-low"%string.

(** [static daysBetween(date1, date2)]; a Date enters the subtraction as
    its time value, a number of milliseconds ([NaN] for an invalid
    date). *)
Definition daysBetween (date1 date2 : number) : number :=
  let oneDay := ofZ 24 * ofZ 60 * ofZ 60 * ofZ 1000 in
  Math_round (Math_abs ((date1 - date2) / oneDay)).

(** *** Strings

    A character of a [string] stands for one UTF-16 code unit below 256
    (Latin-1). *)

(** [String.prototype.toLowerCase] on these characters: A-Z and the
    capital letters of Latin-1 (192-222 except the multiplication sign
    215) move 32 places up. *)
Definition lowerChar (c : ascii) : ascii :=
  let n := nat_of_ascii c in
  if ((65 <=? n) && (n <=? 90)
      || (192 <=? n) && (n <=? 222) && negb (n =? 215))%nat
  then ascii_of_nat (n + 32)
  else c.

Fixpoint toLowerCase (s : string) : string :=
  match s with
  | EmptyString => EmptyString
  | String c rest => String (lowerChar c) (toLowerCase rest)
  end.

Module Allocation.
Record t : Type := mk {
  equity : number;
  debt : number;
  cash : number
}.
End Allocation.

(** The value of [allocations[key]]: a property of the object literal, a
    property inherited from [Object.prototype], or [undefined].  The keys
    are lower-case, and [constructor] and [__proto__] are the only
    members of [Object.prototype] with a lower-case name. *)
Inductive allocationLookup : Type :=
  | OwnAllocation (a : Allocation.t)
  | ObjectConstructor
  | ObjectPrototype
  | Undefined.

Definition allocations (key : string) : allocationLookup :=
  if String.eqb key "conservative"
  then OwnAllocation (Allocation.mk (ofZ 25) (ofZ 70) (ofZ 5))
  else if String.eqb key "moderate"
  then OwnAllocation (Allocation.mk (ofZ 55) (ofZ 35) (ofZ 10))
  else if String.eqb key "growth"
  then OwnAllocation (Allocation.mk (ofZ 75) (ofZ 20) (ofZ 5))
  else if String.eqb key "aggressive"
  then OwnAllocation (Allocation.mk (ofZ 90) (ofZ 8) (ofZ 2))
  else if String.eqb key "constructor" then ObjectConstructor
  else if String.eqb key "__proto__" then ObjectPrototype
  else Undefined.

(** [static getAssetAllocation(riskProfile)]:
    [allocations[riskProfile.toLowerCase()] || allocations['moderate']];
    every value but [undefined] is truthy. *)
Definition getAssetAllocation (riskProfile : string) : allocationLookup :=
  match allocations (toLowerCase riskProfile) with
  | Undefined => allocations "moderate"
  | found => found
  end.

(** *** Regular expressions

    The patterns of this file use character classes, concatenation and
    [+]; with [^] and [$] around the whole pattern, [re.test(s)] holds
    when the pattern matches all of [s]. *)
Inductive regex : Type :=
  | Never
  | Epsilon
  | Class (accepts : ascii -> bool)
  | Seq (r1 r2 : regex)
  | Alt (r1 r2 : regex)
  | Star (r : regex).

Definition Plus (r : regex) : regex := Seq r (Star r).

Fixpoint nullable (r : regex) : bool :=
  match r with
  | Never => false
  | Epsilon => true
  | Class _ => false
  | Seq r1 r2 => nullable r1 && nullable r2
  | Alt r1 r2 => nullable r1 || nullable r2
  | Star _ => true
  end.

(** The pattern for what may follow the character [c]. *)
Fixpoint derivative (c : ascii) (r : regex) : regex :=
  match r with
  | Never => Never
  | Epsilon => Never
  | Class accepts => if accepts c then Epsilon else Never
  | Seq r1 r2 =>
      if nullable r1
      then Alt (Seq (derivative c r1) r2) (derivative c r2)
      else Seq (derivative c r1) r2
  | Alt r1 r2 => Alt (derivative c r1) (derivative c r2)
  | Star r' => Seq (derivative c r') (Star r')
  end.

Fixpoint testAnchored (r : regex) (s : string) : bool :=
  match s with
  | EmptyString => nullable r
  | String c rest => testAnchored (derivative c r) rest
  end.

(** [\s] on these characters: tab, line feed, vertical tab, form feed,
    carriage return, space and no-break space. *)
Definition isWhiteSpace (c : ascii) : bool :=
  let n := nat_of_ascii c in
  ((9 <=? n) && (n <=? 13) || (n =? 32) || (n =? 160))%nat.

(** [[^\s@]] *)
Definition notSpaceNorAt (c : ascii) : bool :=
  negb (isWhiteSpace c || Ascii.eqb c "@").

(** [/^[^\s@]+@[^\s@]+\.[^\s@]+$/] *)
Definition emailPattern : regex :=
  Seq (Plus (Class notSpaceNorAt))
    (Seq (Class (Ascii.eqb "@"))
       (Seq (Plus (Class notSpaceNorAt))
          (Seq (Class (Ascii.eqb "."))
             (Plus (Class notSpaceNorAt))))).

(** [static isValidEmail(email)] *)
Definition isValidEmail (email : string) : bool :=
  testAnchored emailPattern email.

End Utils.

(* ================================================================== *)
(** ** arthasetu-website/auth.js: class AuthManager *)
(* ================================================================== *)

(** [localStorage] holds text.  An entry of the model is missing, or holds
    text that [JSON.parse] rejects (the empty text is such a text), or
    holds the JSON text of a value of the shape this class writes under
    that key; [JSON.parse(JSON.stringify(v))] is [v] for these values.
    Text that parses to a value of another shape is outside the model.
    The entries of the portfolio and of the funds are indexed by the
    email their key ends with; the keys of distinct emails are distinct
    and none of them is one of the three fixed keys.  [payload] is the
    JSON data a caller saves as a portfolio, [fund] one saved fund and
    [setting] the value of one setting: the class only stores them and
    hands them back.  The time of a call, [new Date().toISOString()], is
    the argument [now]. *)
Module AuthManager.

Local Open Scope string_scope.
Local Open Scope bool_scope.

Module User.
Record t : Type := mk {
  name : string;
  email : string;
  password : string;
  createdAt : string;
  type : string
}.
End User.

Module SessionUser.
Record t : Type := mk {
  name : string;
  email : string;
  type : string;
  loginTime : string
}.
End SessionUser.

Module PublicUser.
Record t : Type := mk {
  name : string;
  email : string;
  type : string
}.
End PublicUser.

Inductive item (A : Type) : Type :=
  | Missing
  | Garbage (text : string)
  | Holds (a : A).
Arguments Missing {A}.
Arguments Garbage {A} text.
Arguments Holds {A} a.

(** [localStorage.getItem(key)] as a condition: [null] and the empty text
    are falsy. *)
Definition truthyItem {A : Type} (i : item A) : bool :=
  match i with
  | Missing => false
  | Garbage text => negb (String.eqb text EmptyString)
  | Holds _ => true
  end.

(** An object with string keys, in insertion order. *)
Definition object (V : Type) : Type := list (string * V).

Fixpoint getProp {V : Type} (obj : object V) (key : string) : option V :=
  match obj with
  | [] => None
  | (k, v) :: rest => if String.eqb k key then Some v else getProp rest key
  end.

Fixpoint setProp {V : Type} (obj : object V) (key : string) (v : V) : object V :=
  match obj with
  | [] => [(key, v)]
  | (k, v') :: rest =>
      if String.eqb k key then (k, v) :: rest else (k, v') :: setProp rest key v
  end.

(** [{ ...current, ...settings }] *)
Definition spread {V : Type} (current settings : object V) : object V :=
  fold_left (fun obj kv => setProp obj (fst kv) (snd kv)) settings current.

(** [users.findIndex(pred)] together with [users[index]]; [None] is the
    index -1. *)
Fixpoint findIndex {A : Type} (pred : A -> bool) (l : list A) : option (nat * A) :=
  match l with
  | [] => None
  | x :: rest =>
      if pred x then Some (O, x)
      else match findIndex pred rest with
           | Some (i, y) => Some (S i, y)
           | None => None
           end
  end.

(** An assignment to a field of [users[index]]. *)
Fixpoint updateAt {A : Type} (index : nat) (f : A -> A) (l : list A) : list A :=
  match l, index with
  | [], _ => []
  | x :: rest, O => f x :: rest
  | x :: rest, S i => x :: updateAt i f rest
  end.

(** [users.splice(index, 1)] *)
Fixpoint removeAt {A : Type} (index : nat) (l : list A) : list A :=
  match l, index with
  | [], _ => []
  | _ :: rest, O => rest
  | x :: rest, S i => x :: removeAt i rest
  end.

(** An assignment to a field of the object [users.find(pred)] returned:
    it changes that element of the array, the first one [pred] accepts. *)
Fixpoint updateFirst {A : Type} (pred : A -> bool) (f : A -> A) (l : list A)
    : list A :=
  match l with
  | [] => []
  | x :: rest => if pred x then f x :: rest else x :: updateFirst pred f rest
  end.

(** [!s] for a string. *)
Definition isEmpty (s : string) : bool := String.eqb s EmptyString.

(** The result objects [{ success: true, ... }] and
    [{ success: false, error }]. *)
Inductive outcome (A : Type) : Type :=
  | Success (a : A)
  | Failure (error : string).
Arguments Success {A} a.
Arguments Failure {A} error.

Section Manager.

Variables (payload fund setting : Type).

Record Storage : Type := mkStorage {
  usersItem : item (list User.t);
  sessionItem : item SessionUser.t;
  settingsItem : item (object setting);
  portfolioItem : string -> item (payload * string);
  fundsItem : string -> item (list fund * string)
}.

Record t : Type := mk {
  storage : Storage;
  currentUser : option SessionUser.t
}.

Record ExportData : Type := mkExportData {
  exportUser : SessionUser.t;
  exportPortfolio : option payload;
  exportFunds : list fund;
  exportedAt : string
}.

(** [localStorage.setItem] and [removeItem] on the entries. *)
Definition setUsersItem (i : item (list User.t)) (st : Storage) : Storage :=
  mkStorage i (sessionItem st) (settingsItem st) (portfolioItem st) (fundsItem st).

Definition setSessionItem (i : item SessionUser.t) (st : Storage) : Storage :=
  mkStorage (usersItem st) i (settingsItem st) (portfolioItem st) (fundsItem st).

Definition setSettingsItem (i : item (object setting)) (st : Storage) : Storage :=
  mkStorage (usersItem st) (sessionItem st) i (portfolioItem st) (fundsItem st).

Definition setPortfolioItem (email : string) (i : item (payload * string))
    (st : Storage) : Storage :=
  mkStorage (usersItem st) (sessionItem st) (settingsItem st)
    (fun e => if String.eqb e email then i else portfolioItem st e)
    (fundsItem st).

Definition setFundsItem (email : string) (i : item (list fund * string))
    (st : Storage) : Storage :=
  mkStorage (usersItem st) (sessionItem st) (settingsItem st) (portfolioItem st)
    (fun e => if String.eqb e email then i else fundsItem st e).

(** [localStorage.clear()] *)
Definition clearedStorage : Storage :=
  mkStorage Missing Missing Missing (fun _ => Missing) (fun _ => Missing).

(** [getAllUsers()] *)
Definition getAllUsers (this : t) : list User.t :=
  match usersItem (storage this) with
  | Holds users => users
  | _ => []
  end.

(** The emails of the registered users, in the order of the array. *)
Definition registeredEmails (this : t) : list string :=
  map User.email (getAllUsers this).

(** [loadCurrentUser()], reading the given storage. *)
Definition loadCurrentUser (st : Storage) : option SessionUser.t :=
  match sessionItem st with
  | Holds stored => Some stored
  | _ => None
  end.

(** [constructor()] *)
Definition constructor (st : Storage) : t :=
  mk st (loadCurrentUser st).

Definition demoUser (demoCreatedAt : string) : User.t :=
  User.mk "Rakesh" "rakesh@arthasetu.com" "demo123" demoCreatedAt "user".

(** [initializeDemoData()]; [demoCreatedAt] is
    [new Date(2025, 0, 1).toISOString()], which depends on the time zone. *)
Definition initializeDemoData (demoCreatedAt : string) (this : t) : t :=
  let existing := usersItem (storage this) in
  if negb (truthyItem existing)
  then mk (setUsersItem (Holds [demoUser demoCreatedAt]) (storage this))
          (currentUser this)
  else this.

(** [signup(name, email, password)] *)
Definition signup (name email password now : string) (this : t)
    : outcome PublicUser.t * t :=
  if isEmpty name || isEmpty email || isEmpty password
  then (Failure "All fields required", this)
  else
    let users := getAllUsers this in
    if existsb (fun u => String.eqb (User.email u) email) users
    then (Failure "Email already registered", this)
    else if (String.length password <? 6)%nat
    then (Failure "Password must be 6+ characters", this)
    else
      let newUser := User.mk name email password now "user" in
      let users := (users ++ [newUser])%list in
      (Success (PublicUser.mk name email "user"),
       mk (setUsersItem (Holds users) (storage this)) (currentUser this)).

(** [login(email, password)] *)
Definition login (email password now : string) (this : t)
    : outcome SessionUser.t * t :=
  if isEmpty email || isEmpty password
  then (Failure "Email and password required", this)
  else
    let users := getAllUsers this in
    match find (fun u => String.eqb (User.email u) email
                         && String.eqb (User.password u) password) users with
    | None => (Failure "Invalid email or password", this)
    | Some user =>
        let sessionUser :=
          SessionUser.mk (User.name user) (User.email user) "user" now in
        (Success sessionUser,
         mk (setSessionItem (Holds sessionUser) (storage this)) (Some sessionUser))
    end.

(** [logout()] *)
Definition logout (this : t) : outcome unit * t :=
  (Success tt, mk (setSessionItem Missing (storage this)) None).

(** [isLoggedIn()] *)
Definition isLoggedIn (this : t) : bool :=
  match currentUser this with
  | Some _ => true
  | None => false
  end.

(** [getCurrentUser()] *)
Definition getCurrentUser (this : t) : option SessionUser.t := currentUser this.

Definition withName (name : string) (u : User.t) : User.t :=
  User.mk name (User.email u) (User.password u) (User.createdAt u) (User.type u).

Definition withPassword (password : string) (u : User.t) : User.t :=
  User.mk (User.name u) (User.email u) password (User.createdAt u) (User.type u).

(** [updateProfile(name)] *)
Definition updateProfile (name : string) (this : t)
    : outcome SessionUser.t * t :=
  match currentUser this with
  | None => (Failure "Not logged in", this)
  | Some current =>
      let users := getAllUsers this in
      match findIndex (fun u => String.eqb (User.email u) (SessionUser.email current))
                      users with
      | None => (Failure "User not found", this)
      | Some (userIndex, _) =>
          let users := updateAt userIndex (withName name) users in
          let st := setUsersItem (Holds users) (storage this) in
          let current :=
            SessionUser.mk name (SessionUser.email current)
              (SessionUser.type current) (SessionUser.loginTime current) in
          let st := setSessionItem (Holds current) st in
          (Success current, mk st (Some current))
      end
  end.

(** [changePassword(currentPassword, newPassword)] *)
Definition changePassword (currentPassword newPassword : string) (this : t)
    : outcome string * t :=
  match currentUser this with
  | None => (Failure "Not logged in", this)
  | Some current =>
      let users := getAllUsers this in
      let isCurrent u := String.eqb (User.email u) (SessionUser.email current) in
      match find isCurrent users with
      | None => (Failure "Current password incorrect", this)
      | Some user =>
          if negb (String.eqb (User.password user) currentPassword)
          then (Failure "Current password incorrect", this)
          else if (String.length newPassword <? 6)%nat
          then (Failure "Password must be 6+ characters", this)
          else
            let users := updateFirst isCurrent (withPassword newPassword) users in
            (Success "Password changed successfully",
             mk (setUsersItem (Holds users) (storage this)) (currentUser this))
      end
  end.

(** [deleteAccount(password)] *)
Definition deleteAccount (password : string) (this : t) : outcome string * t :=
  match currentUser this with
  | None => (Failure "Not logged in", this)
  | Some current =>
      let users := getAllUsers this in
      match findIndex (fun u => String.eqb (User.email u) (SessionUser.email current))
                      users with
      | None => (Failure "User not found", this)
      | Some (userIndex, user) =>
          if negb (String.eqb (User.password user) password)
          then (Failure "Password incorrect", this)
          else
            let users := removeAt userIndex users in
            let st := setUsersItem (Holds users) (storage this) in
            let st := setSessionItem Missing st in
            (Success "Account deleted", mk st None)
      end
  end.

(** [getSettings()] *)
Definition getSettings (this : t) : object setting :=
  match settingsItem (storage this) with
  | Holds settings => settings
  | _ => []
  end.

(** [saveSettings(settings)] *)
Definition saveSettings (settings : object setting) (this : t)
    : object setting * t :=
  let current := getSettings this in
  let updated := spread current settings in
  (updated, mk (setSettingsItem (Holds updated) (storage this)) (currentUser this)).

(** [savePortfolioData(portfolioData)] *)
Definition savePortfolioData (portfolioData : payload) (now : string) (this : t)
    : outcome unit * t :=
  match currentUser this with
  | None => (Failure "Not logged in", this)
  | Some current =>
      (Success tt,
       mk (setPortfolioItem (SessionUser.email current) (Holds (portfolioData, now))
             (storage this))
          (currentUser this))
  end.

(** [getPortfolioData()]; [None] is [null]. *)
Definition getPortfolioData (this : t) : option payload :=
  match currentUser this with
  | None => None
  | Some current =>
      match portfolioItem (storage this) (SessionUser.email current) with
      | Holds (data, _) => Some data
      | _ => None
      end
  end.

(** [saveFundRecommendations(funds)] *)
Definition saveFundRecommendations (funds : list fund) (now : string) (this : t)
    : outcome unit * t :=
  match currentUser this with
  | None => (Failure "Not logged in", this)
  | Some current =>
      (Success tt,
       mk (setFundsItem (SessionUser.email current) (Holds (funds, now))
             (storage this))
          (currentUser this))
  end.

(** [getSavedFunds()] *)
Definition getSavedFunds (this : t) : list fund :=
  match currentUser this with
  | None => []
  | Some current =>
      match fundsItem (storage this) (SessionUser.email current) with
      | Holds (funds, _) => funds
      | _ => []
      end
  end.

(** [clearAllData()] *)
Definition clearAllData (demoCreatedAt : string) (this : t) : outcome unit * t :=
  let this := mk clearedStorage None in
  (Success tt, initializeDemoData demoCreatedAt this).

(** [exportData()] *)
Definition exportData (now : string) (this : t) : outcome ExportData :=
  match currentUser this with
  | None => Failure "Not logged in"
  | Some current =>
      let funds := getSavedFunds this in
      let portfolio := getPortfolioData this in
      Success (mkExportData current portfolio funds now)
  end.

End Manager.

Arguments Storage : clear implicits.
Arguments t : clear implicits.

End AuthManager.

Import SIPCalculator.

(* ================================================================== *)
(** ** Reference quantities used in the statements *)
(* ================================================================== *)

(** Two numbers denote the same value: the rationals [1/2] and [2/4] are
    the same number. *)
Definition num_eq (x y : number) : Prop :=
  match x, y with
  | Fin a, Fin b => a == b
  | PInf, PInf | NInf, NInf | NaN, NaN => True
  | _, _ => False
  end.

Infix "=n=" := num_eq (at level 70, no associativity).

(** The monthly rate of an annual percentage [a]. *)
Definition monthlyRateOf (a : Q) : Q := a / 12 / 100.





(** The points each criterion of [Utils.scoreFund] adds to the score. *)
Definition erPoints (er : number) : Z :=
  if leb er (Fin (1 # 2)) then 25
  else if leb er (ofZ 1) then 20
  else if leb er (Fin (3 # 2)) then 15
  else 10.

Definition alphaPoints (alpha : number) : Z :=
  if geb alpha (ofZ 3) then 25
  else if geb alpha (ofZ 2) then 20
  else if geb alpha (ofZ 1) then 15
  else if geb alpha (ofZ 0) then 10
  else 5.

Definition sharpePoints (sharpe : number) : Z :=
  if geb sharpe (ofZ 2) then 25
  else if geb sharpe (Fin (3 # 2)) then 20
  else if geb sharpe (ofZ 1) then 15
  else 10.

Definition cagrPoints (cagr : number) : Z :=
  if geb cagr (ofZ 18) then 25
  else if geb cagr (ofZ 15) then 20
  else if geb cagr (ofZ 12) then 15
  else 10.

(** Sample states of an [AuthManager] whose saved data are strings: a
    manager on an empty storage, the same after Alice has signed up, and
    after she has logged in. *)
Definition freshManager : AuthManager.t string string string :=
  AuthManager.constructor (AuthManager.clearedStorage string string string).

Definition aliceSignedUp : AuthManager.t string string string :=
  snd (AuthManager.signup "Alice" "alice@example.com" "secret1"
         "2025-01-01T00:00:00.000Z" freshManager).

Definition aliceLoggedIn : AuthManager.t string string string :=
  snd (AuthManager.login "alice@example.com" "secret1"
         "2025-01-02T00:00:00.000Z" aliceSignedUp).

(** [s] is in the language of the pattern. *)
Inductive Matches : Utils.regex -> string -> Prop :=
  | MatchesEpsilon : Matches Utils.Epsilon EmptyString
  | MatchesClass accepts c :
      accepts c = true -> Matches (Utils.Class accepts) (String c EmptyString)
  | MatchesSeq r1 r2 s1 s2 :
      Matches r1 s1 -> Matches r2 s2 -> Matches (Utils.Seq r1 r2) (s1 ++ s2)
  | MatchesAltL r1 r2 s : Matches r1 s -> Matches (Utils.Alt r1 r2) s
  | MatchesAltR r1 r2 s : Matches r2 s -> Matches (Utils.Alt r1 r2) s
  | MatchesStarNil r : Matches (Utils.Star r) EmptyString
  | MatchesStarCons r s1 s2 :
      Matches r s1 -> Matches (Utils.Star r) s2 -> Matches (Utils.Star r) (s1 ++ s2).

(** Every character of [s] is accepted. *)
Fixpoint allChars (accepts : ascii -> bool) (s : string) : bool :=
  match s with
  | EmptyString => true
  | String c rest => accepts c && allChars accepts rest
  end.

(** The sampled months of the projection table:
    [interval, 2*interval, ..., count*interval]. *)
Definition sampledMonths (interval : Z) (count : nat) : list Z :=
  map (fun k => (Z.of_nat k * interval)%Z) (seq 1 count).

(* ================================================================== *)
(** ** The test cases at the end of part_000 *)
(* ================================================================== *)

(** Test 1: 10,000 a month for 20 years at 12%. *)
Example test1_forward :
  let f := calculateForwardSIP (ofZ 10000) 20 (ofZ 12) in
  ForwardResult.futureValue f = ofZ 9991479
  /\ ForwardResult.principal f = ofZ 2400000
  /\ ForwardResult.gains f = ofZ 7591479
  /\ ForwardResult.gainPercent f = "76.0"%string
  /\ ForwardResult.months f = 240%Z.
Proof. cbn zeta. repeat split; vm_compute; reflexivity. Qed.

(** Test 2: a goal of one crore in 20 years at 12%. *)
Example test2_reverse :
  ReverseResult.monthlySIP (calculateReverseSIP (ofZ 10000000) 20 (ofZ 12))
  = ofZ 10009.
Proof. vm_compute. reflexivity. Qed.

(** Test 3: the round trip of test 1 is accurate, with no variance. *)
Example test3_verify :
  Verification.isAccurate (verifyCalculation (ofZ 10000) 20 (ofZ 12)) = true
  /\ Verification.variance (verifyCalculation (ofZ 10000) 20 (ofZ 12)) = ofZ 0.
Proof. split; vm_compute; reflexivity. Qed.

(** The yearly projection of the last test has 20 rows; an omitted
    interval is 12 months. *)
Example test_projection_default :
  option_map (map ProjectionRow.month)
    (generateProjectionTable 21 (ofZ 10000) 20 (ofZ 12) None)
  = Some (sampledMonths 12 20).
Proof. vm_compute. reflexivity. Qed.

(** [toFixed(1)] on a few values. *)
Example toFixed1_samples :
  toFixed1 (Fin (7 # 12)) = "0.6"%string
  /\ toFixed1 (Fin (- 4 # 100)) = "-0.0"%string
  /\ toFixed1 (div (ofZ 0) (ofZ 0)) = "NaN"%string
  /\ toFixed1 (div (ofZ 1) (ofZ 0)) = "Infinity"%string.
Proof. repeat split; vm_compute; reflexivity. Qed.

(* ================================================================== *)
(** ** Numbers: equality and arithmetic *)
(* ================================================================== *)

#[local] Open Scope Q_scope.

#[global] Instance num_eq_equiv : Equivalence num_eq.
Proof.
  split.
  - intros [q| | |]; simpl; auto. reflexivity.
  - intros [a| | |] [b| | |]; simpl; auto. intro H; symmetry; exact H.
  - intros [a| | |] [b| | |] [c| | |]; simpl; auto; try tauto.
    intros H1 H2; rewrite H1; exact H2.
Qed.

Lemma Qsign_spec (q : Q) :
  (Qsign q = Neg /\ q < 0) \/ (Qsign q = Zero /\ q == 0) \/ (Qsign q = Pos /\ 0 < q).
Proof.
  unfold Qsign. destruct (Qcompare_spec q 0); auto.
Qed.

Lemma Qsign_pos (q : Q) : 0 < q -> Qsign q = Pos.
Proof.
  intro H. destruct (Qsign_spec q) as [[_ H']|[[_ H']|[E _]]]; auto; lra.
Qed.

Lemma Qsign_neg (q : Q) : q < 0 -> Qsign q = Neg.
Proof.
  intro H. destruct (Qsign_spec q) as [[E _]|[[_ H']|[_ H']]]; auto; lra.
Qed.

Lemma Qsign_zero (q : Q) : q == 0 -> Qsign q = Zero.
Proof.
  intro H. destruct (Qsign_spec q) as [[_ H']|[[E _]|[_ H']]]; auto; lra.
Qed.

#[global] Instance Qsign_proper : Proper (Qeq ==> eq) Qsign.
Proof.
  intros a b E. unfold Qsign. rewrite E. reflexivity.
Qed.

Lemma Qsign_mult (a b : Q) : Qsign (a * b) = signMul (Qsign a) (Qsign b).
Proof.
  destruct (Qsign_spec a) as [[Ea Ha]|[[Ea Ha]|[Ea Ha]]];
  destruct (Qsign_spec b) as [[Eb Hb]|[[Eb Hb]|[Eb Hb]]];
  rewrite Ea, Eb; simpl.
  - apply Qsign_pos. nra.
  - apply Qsign_zero. rewrite Hb. ring.
  - apply Qsign_neg. nra.
  - apply Qsign_zero. rewrite Ha. ring.
  - apply Qsign_zero. rewrite Ha. ring.
  - apply Qsign_zero. rewrite Ha. ring.
  - apply Qsign_neg. nra.
  - apply Qsign_zero. rewrite Hb. ring.
  - apply Qsign_pos. nra.
Qed.

#[global] Instance signOf_proper : Proper (num_eq ==> eq) signOf.
Proof.
  intros [a| | |] [b| | |]; simpl; try tauto. intro E. now rewrite E.
Qed.

#[global] Instance neg_proper : Proper (num_eq ==> num_eq) neg.
Proof.
  intros [a| | |] [b| | |]; simpl; try tauto. intro E. now rewrite E.
Qed.

#[global] Instance add_proper : Proper (num_eq ==> num_eq ==> num_eq) add.
Proof.
  intros [a| | |] [b| | |] E1 [c| | |] [d| | |] E2; simpl in *; try tauto.
  now rewrite E1, E2.
Qed.

#[global] Instance sub_proper : Proper (num_eq ==> num_eq ==> num_eq) sub.
Proof.
  intros x y E1 z w E2. unfold sub. now rewrite E1, E2.
Qed.

Lemma infOf_refl (s : sign) : infOf s =n= infOf s.
Proof. reflexivity. Qed.

#[global] Instance mul_proper : Proper (num_eq ==> num_eq ==> num_eq) mul.
Proof.
  intros [a| | |] [b| | |] E1 [c| | |] [d| | |] E2; simpl in *; try tauto;
    try (now rewrite E1, E2);
    try (rewrite E1; apply infOf_refl);
    try (rewrite E2; apply infOf_refl).
Qed.

#[global] Instance div_proper : Proper (num_eq ==> num_eq ==> num_eq) div.
Proof.
  intros [a| | |] [b| | |] E1 [c| | |] [d| | |] E2; simpl in *; try tauto;
    try reflexivity.
  - rewrite <- E2. destruct (Qsign_spec c) as [[Ec Hc]|[[Ec Hc]|[Ec Hc]]];
      rewrite Ec; simpl; try (rewrite E1; apply infOf_refl).
    + rewrite E1, E2. reflexivity.
    + rewrite E1, E2. reflexivity.
  - rewrite E2. reflexivity.
  - rewrite E2. reflexivity.
Qed.

#[global] Instance Math_round_proper : Proper (num_eq ==> eq) Math_round.
Proof.
  intros [a| | |] [b| | |]; simpl; try tauto.
  intro E. unfold roundHalfUp. now rewrite E.
Qed.

#[global] Instance Math_abs_proper : Proper (num_eq ==> num_eq) Math_abs.
Proof.
  intros [a| | |] [b| | |]; simpl; try tauto. intro E. now rewrite E.
Qed.

#[global] Instance ltb_proper : Proper (num_eq ==> num_eq ==> eq) ltb.
Proof.
  intros [a| | |] [b| | |] E1 [c| | |] [d| | |] E2; simpl in *; try tauto.
  now rewrite E1, E2.
Qed.

#[global] Instance Math_pow_proper : Proper (num_eq ==> eq ==> num_eq) Math_pow.
Proof.
  intros [a| | |] [b| | |] E n ? <-; simpl in *; try tauto; try reflexivity.
  unfold Math_pow. destruct (n =? 0)%Z; [reflexivity|].
  rewrite <- E. destruct (Qsign a); try reflexivity; simpl; now rewrite E.
Qed.

#[global] Instance toFixed1_proper : Proper (num_eq ==> eq) toFixed1.
Proof.
  intros [a| | |] [b| | |]; simpl; try tauto.
  intro E. unfold fixedString, exponentString.
  rewrite (Qsign_proper E).
  assert (EA : Qabs a == Qabs b) by now rewrite E.
  rewrite (Qleb_comp _ _ (Qeq_refl _) _ _ EA).
  rewrite (Qfloor_comp _ _ EA).
  assert (ET : Qabs a * 10 + (1 # 2) == Qabs b * 10 + (1 # 2)) by now rewrite EA.
  rewrite (Qfloor_comp _ _ ET). reflexivity.
Qed.

(** *** Finite arithmetic *)

Lemma div_fin (a b : Q) : ~ b == 0 -> div (Fin a) (Fin b) = Fin (a / b).
Proof.
  intro H. simpl. destruct (Qsign_spec b) as [[E _]|[[_ E]|[E _]]];
    try (now rewrite E). contradiction.
Qed.

Lemma div_zero_zero (a b : Q) : a == 0 -> b == 0 -> div (Fin a) (Fin b) = NaN.
Proof.
  intros Ha Hb. simpl. now rewrite (Qsign_zero Hb), (Qsign_zero Ha).
Qed.

Lemma Math_pow_fin (b : Q) (n : Z) : ~ b == 0 -> Math_pow (Fin b) n = Fin (b ^ n).
Proof.
  intro H. unfold Math_pow. destruct (Z.eqb_spec n 0) as [->|Hn]; [reflexivity|].
  destruct (Qsign_spec b) as [[E _]|[[_ E]|[E _]]]; try (now rewrite E).
  contradiction.
Qed.

(** *** Rounding *)

Lemma roundHalfUp_bounds (q : Q) :
  inject_Z (roundHalfUp q) <= q + (1 # 2) /\ q + (1 # 2) < inject_Z (roundHalfUp q) + 1.
Proof.
  unfold roundHalfUp. split.
  - apply Qfloor_le.
  - pose proof (Qlt_floor (q + (1 # 2))) as H.
    rewrite inject_Z_plus in H. exact H.
Qed.

Lemma roundHalfUp_unique (q : Q) (z : Z) :
  inject_Z z <= q + (1 # 2) -> q + (1 # 2) < inject_Z z + 1 -> roundHalfUp q = z.
Proof.
  intros H1 H2. destruct (roundHalfUp_bounds q) as [B1 B2].
  assert (L1 : inject_Z z < inject_Z (roundHalfUp q + 1)).
  { rewrite inject_Z_plus. change (inject_Z 1) with 1. lra. }
  assert (L2 : inject_Z (roundHalfUp q) < inject_Z (z + 1)).
  { rewrite inject_Z_plus. change (inject_Z 1) with 1. lra. }
  rewrite <- Zlt_Qlt in L1, L2. lia.
Qed.

Lemma roundHalfUp_mono (x y : Q) : x <= y -> (roundHalfUp x <= roundHalfUp y)%Z.
Proof.
  intro H. unfold roundHalfUp. apply Qfloor_resp_le. lra.
Qed.

Lemma roundHalfUp_shift (q : Q) (k : Z) :
  roundHalfUp (q + inject_Z k) = (roundHalfUp q + k)%Z.
Proof.
  destruct (roundHalfUp_bounds q) as [B1 B2].
  apply roundHalfUp_unique; rewrite inject_Z_plus; lra.
Qed.


Lemma roundHalfUp_near (q : Q) : Qabs (inject_Z (roundHalfUp q) - q) <= 1 # 2.
Proof.
  destruct (roundHalfUp_bounds q) as [B1 B2].
  apply Qabs_Qle_condition. split; lra.
Qed.

(** *** The annuity-due factor *)






(** *** The engine on finite inputs *)






Lemma mul_NaN_r (x : number) : mul x NaN = NaN.
Proof. destruct x; reflexivity. Qed.

(** At a zero annual rate the quotient [numerator / monthlyRate] is 0/0. *)
Lemma zero_rate_quotient (n : Z) :
  div (sub (Math_pow (add (ofZ 1) (Fin (monthlyRateOf 0))) n) (ofZ 1))
      (Fin (monthlyRateOf 0)) = NaN.
Proof.
  cbn [add ofZ]. rewrite Math_pow_fin by (intro H; discriminate H).
  cbn [sub add neg ofZ]. apply div_zero_zero; [|reflexivity].
  assert (E : inject_Z 1 + monthlyRateOf 0 == 1) by reflexivity.
  rewrite E, Qpower_1. reflexivity.
Qed.

(** A number that is zero or already [NaN]: what a product with a zero
    factor can be. *)
Lemma mul_zero_or_NaN (x y : number) :
  match x with Fin q => q == 0 | NaN => True | _ => False end ->
  match mul x y with Fin q => q == 0 | NaN => True | _ => False end.
Proof.
  destruct x as [a| | |], y as [b| | |]; simpl; try tauto; intro H.
  - rewrite H. ring.
  - now rewrite (Qsign_zero H).
  - now rewrite (Qsign_zero H).
Qed.

Lemma gainPercent_of_zero (fv p : number) :
  match fv with Fin q => q == 0 | NaN => True | _ => False end ->
  match p with Fin q => q == 0 | _ => False end ->
  toFixed1 (mul (div (sub fv p) fv) (ofZ 100)) = "NaN"%string.
Proof.
  destruct fv as [a| | |], p as [b| | |]; simpl; try tauto; intros Ha Hb.
  rewrite (Qsign_zero Ha).
  assert (E : a + - b == 0) by (rewrite Ha, Hb; ring).
  now rewrite (Qsign_zero E).
Qed.

(* ================================================================== *)
(** ** C2: the zero-rate case of [calculateForwardSIP] *)
(* ================================================================== *)

(** C2, counterexample: [calculateForwardSIP(10000, 20, 0)] does not
    return 10000 * 20 * 12 as its future value; the quotient 0/0 makes it
    [NaN]. *)
Lemma forward_zero_rate_counterexample :
  ForwardResult.futureValue (calculateForwardSIP (ofZ 10000) 20 (ofZ 0)) = NaN
  /\ ~ ForwardResult.futureValue (calculateForwardSIP (ofZ 10000) 20 (ofZ 0))
       =n= ofZ (10000 * 20 * 12).
Proof.
  split; vm_compute; [reflexivity | tauto].
Qed.

(** C2, as amended: [calculateForwardSIP] has no special case for a zero
    rate.  For every monthly amount and every number of years, an annual
    rate of 0 gives [NaN] for futureValue and gains and the text "NaN"
    for gainPercent; only principal, monthlyRate and months are computed
    as usual. *)
Theorem forward_zero_rate_is_NaN (monthlyAmount : number) (years : Z) :
  let f := calculateForwardSIP monthlyAmount years (ofZ 0) in
  ForwardResult.futureValue f = NaN
  /\ ForwardResult.gains f = NaN
  /\ ForwardResult.gainPercent f = "NaN"%string
  /\ ForwardResult.principal f = Math_round (mul monthlyAmount (ofZ (years * 12)))
  /\ ForwardResult.monthlyRate f =n= ofZ 0
  /\ ForwardResult.months f = (years * 12)%Z.
Proof.
  unfold calculateForwardSIP. cbn zeta. cbn [ForwardResult.futureValue
    ForwardResult.gains ForwardResult.gainPercent ForwardResult.principal
    ForwardResult.monthlyRate ForwardResult.months].
  change (div (div (ofZ 0) (ofZ 12)) (ofZ 100)) with (Fin (monthlyRateOf 0)).
  rewrite zero_rate_quotient, mul_NaN_r.
  repeat split; reflexivity.
Qed.

(* ================================================================== *)
(** ** C7: gainPercent when the future value is zero *)
(* ================================================================== *)

(** C7, counterexample: [calculateForwardSIP(0, 20, 12)] has a future
    value of 0 and reports gainPercent as the text "NaN". *)
Lemma gainPercent_counterexample :
  ForwardResult.futureValue (calculateForwardSIP (ofZ 0) 20 (ofZ 12)) = ofZ 0
  /\ ForwardResult.gainPercent (calculateForwardSIP (ofZ 0) 20 (ofZ 12))
     = "NaN"%string.
Proof.
  split; vm_compute; reflexivity.
Qed.





(** Dividing by a computed future value of 0 never gives a number: the
    quotient is [NaN] (0/0) or an infinity, and so is its product by
    100. *)
Lemma toFixed1_over_zero (g fv : number) :
  fv =n= ofZ 0 ->
  toFixed1 (mul (div g fv) (ofZ 100)) = "NaN"%string
  \/ toFixed1 (mul (div g fv) (ofZ 100)) = "Infinity"%string
  \/ toFixed1 (mul (div g fv) (ofZ 100)) = "-Infinity"%string.
Proof.
  destruct fv as [q| | |]; cbn [num_eq ofZ]; try tauto. intro Hq.
  change (inject_Z 0) with 0 in Hq.
  destruct g as [a| | |]; cbn [div signOf]; rewrite ?(Qsign_zero Hq).
  - destruct (Qsign a); cbn; auto.
  - cbn; auto.
  - cbn; auto.
  - cbn; auto.
Qed.

(** C7, as amended: for every monthly amount, term and rate, gainPercent
    is [toFixed(1)] of gains / futureValue * 100 taken on the unrounded
    values, with no guard on the divisor.  Whenever the computed
    futureValue is 0 the returned text is "NaN", "Infinity" or
    "-Infinity", never a number; with a monthly amount of 0 it is "NaN"
    whatever the term and the rate. *)
Theorem gainPercent_rendering (monthlyAmount : number) (years : Z)
    (annualRate : number) :
  let monthlyRate := div (div annualRate (ofZ 12)) (ofZ 100) in
  let months := (years * 12)%Z in
  let numerator := sub (Math_pow (add (ofZ 1) monthlyRate) months) (ofZ 1) in
  let futureValue :=
    mul (mul monthlyAmount (div numerator monthlyRate)) (add (ofZ 1) monthlyRate) in
  let gains := sub futureValue (mul monthlyAmount (ofZ months)) in
  let gainPercent :=
    ForwardResult.gainPercent (calculateForwardSIP monthlyAmount years annualRate) in
  gainPercent = toFixed1 (mul (div gains futureValue) (ofZ 100))
  /\ (futureValue =n= ofZ 0 ->
      gainPercent = "NaN"%string \/ gainPercent = "Infinity"%string
      \/ gainPercent = "-Infinity"%string)
  /\ (monthlyAmount =n= ofZ 0 -> gainPercent = "NaN"%string).
Proof.
  cbn zeta. split; [reflexivity|]. split.
  - intro H. unfold calculateForwardSIP. cbn zeta. cbn [ForwardResult.gainPercent].
    apply toFixed1_over_zero. exact H.
  - intro H. unfold calculateForwardSIP. cbn zeta. cbn [ForwardResult.gainPercent].
    destruct monthlyAmount as [p| | |]; cbn [num_eq ofZ] in H; try tauto.
    change (inject_Z 0) with 0 in H.
    apply gainPercent_of_zero.
    + apply mul_zero_or_NaN. apply (@mul_zero_or_NaN (Fin p)). exact H.
    + cbn [mul ofZ]. rewrite H. ring.
Qed.

Lemma gainPercent_rendering_witness :
  ForwardResult.gainPercent (calculateForwardSIP (ofZ 0) 20 (ofZ 12)) = "NaN"%string
  /\ (ForwardResult.gainPercent (calculateForwardSIP (ofZ 10000) 1 (ofZ (-1200)))
      = "NaN"%string
      \/ ForwardResult.gainPercent (calculateForwardSIP (ofZ 10000) 1 (ofZ (-1200)))
         = "Infinity"%string
      \/ ForwardResult.gainPercent (calculateForwardSIP (ofZ 10000) 1 (ofZ (-1200)))
         = "-Infinity"%string).
Proof.
  split.
  - destruct (@gainPercent_rendering (ofZ 0) 20 (ofZ 12)) as [_ [_ H]].
    apply H. reflexivity.
  - destruct (@gainPercent_rendering (ofZ 10000) 1 (ofZ (-1200))) as [_ [H _]].
    apply H. vm_compute. reflexivity.
Defined.

(** The three texts occur: at a monthly rate of -100% the future value of
    a positive amount is 0 and its gains are negative, and a term of 0
    years gives 0/0. *)
Example gainPercent_degenerate :
  ForwardResult.gainPercent (calculateForwardSIP (ofZ 10000) 1 (ofZ (-1200)))
  = "-Infinity"%string
  /\ ForwardResult.gainPercent (calculateForwardSIP (ofZ (-10000)) 1 (ofZ (-1200)))
     = "Infinity"%string
  /\ ForwardResult.gainPercent (calculateForwardSIP (ofZ 10000) 0 (ofZ 12))
     = "NaN"%string.
Proof. repeat split; vm_compute; reflexivity. Qed.

(* ================================================================== *)
(** ** C10: bounds of [Utils.scoreFund] *)
(* ================================================================== *)

(** C10: for every metrics record, whatever its four numbers ([NaN] and
    the infinities included), [scoreFund] returns a whole number between
    35 and 100. *)
Theorem scoreFund_bounds (metrics : Utils.Metrics.t) :
  exists score : Z,
    Utils.scoreFund metrics = ofZ score /\ (35 <= score <= 100)%Z.
Proof.
  unfold Utils.scoreFund. cbn zeta.
  destruct (leb (Utils.Metrics.er metrics) (Fin (1 # 2)));
    [|destruct (leb (Utils.Metrics.er metrics) (ofZ 1));
      [|destruct (leb (Utils.Metrics.er metrics) (Fin (3 # 2)))]];
  (destruct (geb (Utils.Metrics.alpha metrics) (ofZ 3));
    [|destruct (geb (Utils.Metrics.alpha metrics) (ofZ 2));
      [|destruct (geb (Utils.Metrics.alpha metrics) (ofZ 1));
        [|destruct (geb (Utils.Metrics.alpha metrics) (ofZ 0))]]]);
  (destruct (geb (Utils.Metrics.sharpe metrics) (ofZ 2));
    [|destruct (geb (Utils.Metrics.sharpe metrics) (Fin (3 # 2)));
      [|destruct (geb (Utils.Metrics.sharpe metrics) (ofZ 1))]]);
  (destruct (geb (Utils.Metrics.cagr metrics) (ofZ 18));
    [|destruct (geb (Utils.Metrics.cagr metrics) (ofZ 15));
      [|destruct (geb (Utils.Metrics.cagr metrics) (ofZ 12))]]);
  eexists; (split; [vm_compute; reflexivity | lia]).
Qed.

(** Both bounds are reached: 35 when no comparison holds (for instance on
    [NaN] metrics), 100 on a fund that passes every first threshold. *)
Example scoreFund_extremes :
  Utils.scoreFund (Utils.Metrics.mk NaN NaN NaN NaN) = ofZ 35
  /\ Utils.scoreFund
       (Utils.Metrics.mk (Fin (1 # 2)) (ofZ 3) (ofZ 2) (ofZ 18)) = ofZ 100.
Proof. split; vm_compute; reflexivity. Qed.

(* ================================================================== *)
(** ** The loop of [generateProjectionTable] *)
(* ================================================================== *)

Section ProjectionLoop.

Variables (monthlyAmount monthlyRate : number) (months interval : Z).

(** With a positive step, the loop started at [m] pushes the rows of
    [m], [m + interval], ... and stops after [cnt] of them, [cnt] being
    the number of these months that do not exceed [months]. *)
Lemma projectionLoop_runs (cnt : nat) :
  (1 <= interval)%Z ->
  forall (fuel : nat) (m : Z) (table : list ProjectionRow.t),
    (cnt < fuel)%nat ->
    (months < m + Z.of_nat cnt * interval)%Z ->
    (cnt = O \/ m + (Z.of_nat cnt - 1) * interval <= months)%Z ->
    projectionLoop fuel monthlyAmount monthlyRate months interval m table
    = Some (table ++ map (fun j => projectionRow monthlyAmount monthlyRate
                                     (m + Z.of_nat j * interval)%Z)
                         (seq 0 cnt)).
Proof.
  intro Hi. induction cnt as [|c IH]; intros fuel m table Hf Hhi Hlo.
  - destruct fuel as [|f]; [lia|]. simpl.
    destruct (Z.leb_spec m months); [lia|]. now rewrite app_nil_r.
  - destruct fuel as [|f]; [lia|]. cbn [projectionLoop].
    destruct (Z.leb_spec m months); [|nia].
    rewrite IH; [| lia | nia | destruct c; [now left | right; nia]].
    rewrite <- app_assoc. cbn [app seq map]. f_equal. f_equal. f_equal.
    + f_equal. lia.
    + rewrite <- seq_shift, map_map. apply map_ext. intro j.
      f_equal. lia.
Qed.

(** With a step of zero or less the loop variable never passes [months]
    once it is below it: no amount of fuel ends the loop. *)
Lemma projectionLoop_diverges (fuel : nat) :
  (interval <= 0)%Z ->
  forall (m : Z) (table : list ProjectionRow.t),
    (m <= months)%Z ->
    projectionLoop fuel monthlyAmount monthlyRate months interval m table = None.
Proof.
  intro Hi. induction fuel as [|f IH]; intros m table Hm.
  - reflexivity.
  - cbn [projectionLoop]. destruct (Z.leb_spec m months); [|lia].
    apply IH. lia.
Qed.

End ProjectionLoop.

Lemma sampledMonths_count (months interval : Z) :
  (1 <= interval)%Z ->
  let cnt := Z.to_nat (months / interval) in
  (months < interval + Z.of_nat cnt * interval)%Z
  /\ (cnt = O \/ interval + (Z.of_nat cnt - 1) * interval <= months)%Z.
Proof.
  intros Hi cnt. pose proof (Z.div_mod months interval ltac:(lia)) as D.
  pose proof (Z.mod_pos_bound months interval ltac:(lia)) as B.
  destruct (Z.le_gt_cases 0 (months / interval)) as [Hq|Hq].
  - unfold cnt. rewrite Z2Nat.id by exact Hq. split; [nia|].
    destruct (Z.eq_dec (months / interval) 0) as [E|E].
    + left. rewrite E. reflexivity.
    + right. nia.
  - unfold cnt. replace (Z.to_nat (months / interval)) with O by lia.
    split; [nia | now left].
Qed.

Lemma generateProjectionTable_rows (fuel : nat) (monthlyAmount : number)
    (years : Z) (annualRate : number) (interval : Z) :
  (1 <= interval)%Z ->
  (Z.to_nat (years * 12 / interval) < fuel)%nat ->
  generateProjectionTable fuel monthlyAmount years annualRate (Some interval)
  = Some (map (projectionRow monthlyAmount (div (div annualRate (ofZ 12)) (ofZ 100)))
              (sampledMonths interval (Z.to_nat (years * 12 / interval)))).
Proof.
  intros Hi Hf. unfold generateProjectionTable. cbn zeta.
  destruct (sampledMonths_count (years * 12) Hi) as [Hhi Hlo].
  rewrite (@projectionLoop_runs monthlyAmount _ (years * 12) interval _ Hi
             fuel interval [] Hf Hhi Hlo).
  cbn [app]. unfold sampledMonths. rewrite <- seq_shift, !map_map.
  f_equal. apply map_ext. intro j. f_equal. lia.
Qed.

Lemma sampledMonths_length (interval : Z) (count : nat) :
  List.length (sampledMonths interval count) = count.
Proof. unfold sampledMonths. now rewrite List.length_map, List.length_seq. Qed.

Lemma sampledMonths_In (interval : Z) (count : nat) (m : Z) :
  In m (sampledMonths interval count)
  <-> exists k : Z, (1 <= k <= Z.of_nat count)%Z /\ m = (k * interval)%Z.
Proof.
  unfold sampledMonths. rewrite in_map_iff. split.
  - intros [j [E Hj]]. apply in_seq in Hj. exists (Z.of_nat j). split; [lia|easy].
  - intros [k [Hk E]]. exists (Z.to_nat k). split.
    + rewrite Z2Nat.id by lia. now symmetry.
    + apply in_seq. lia.
Qed.

Lemma projectionRow_months (monthlyAmount monthlyRate : number) (l : list Z) :
  map ProjectionRow.month (map (projectionRow monthlyAmount monthlyRate) l) = l.
Proof.
  rewrite map_map. cbn [projectionRow ProjectionRow.month]. apply map_id.
Qed.

(* ================================================================== *)
(** ** C5: the rows of the projection table *)
(* ================================================================== *)

(** C5, counterexample: [generateProjectionTable(10000, 2, 12, 1.6)].
    The interval 1.6 is 1 or more and floor(2*12 / 1.6) is 15, but the
    table has 14 rows: the loop adds the interval to [m] in binary64 and
    the fifteenth sum, 24.000000000000004, is above 24.  ([0x1.999999999999ap+0]
    is the binary64 number the literal 1.6 denotes.) *)
Lemma projection_fractional_interval_counterexample :
  exists sampled : list float,
    Binary64.projectionMonths 16 2%float 0x1.999999999999ap+0%float = Some sampled
    /\ List.length sampled = 14%nat
    /\ PrimFloat.div (PrimFloat.mul 2%float 12%float) 0x1.999999999999ap+0%float
       = 15%float.
Proof.
  eexists. split; [vm_compute; reflexivity|]. split; [reflexivity|].
  vm_compute. reflexivity.
Qed.

(** C5, as amended: for a term of [years] and a sampling interval that is
    a whole number of 1 or more (with [years * 12] below 2^53 and fewer
    than 2^32 rows, and enough fuel for the loop to finish),
    [generateProjectionTable] returns the rows of the months interval,
    2*interval, ... in this order, one for each positive multiple of the
    interval up to [years * 12] and no other, so floor(years*12 /
    interval) rows; each row is the loop body evaluated at its month,
    which on a month of whole years gives the futureValue, principal and
    gains of [calculateForwardSIP]; and when the interval does not divide
    [years * 12] no row has the full term as its month. *)
Theorem projection_stepping (fuel : nat) (monthlyAmount : number) (years : Z)
    (annualRate : number) (interval : Z) :
  (0 < years)%Z -> (1 <= interval)%Z ->
  (years * 12 < 2 ^ 53)%Z -> (years * 12 / interval < 2 ^ 32)%Z ->
  (Z.to_nat (years * 12 / interval) < fuel)%nat ->
  let monthlyRate := div (div annualRate (ofZ 12)) (ofZ 100) in
  exists table : list ProjectionRow.t,
    generateProjectionTable fuel monthlyAmount years annualRate (Some interval)
    = Some table
    /\ table = map (projectionRow monthlyAmount monthlyRate)
                   (sampledMonths interval (Z.to_nat (years * 12 / interval)))
    /\ List.length table = Z.to_nat (years * 12 / interval)
    /\ (forall m : Z, In m (map ProjectionRow.month table)
        <-> exists k : Z, (1 <= k)%Z /\ m = (k * interval)%Z /\ (m <= years * 12)%Z)
    /\ (~ (interval | years * 12)%Z ->
        ~ In (years * 12)%Z (map ProjectionRow.month table))
    /\ (forall y : Z,
        let row := projectionRow monthlyAmount monthlyRate (y * 12) in
        let f := calculateForwardSIP monthlyAmount y annualRate in
        ProjectionRow.futureValue row = ForwardResult.futureValue f
        /\ ProjectionRow.principal row = ForwardResult.principal f
        /\ ProjectionRow.gains row = ForwardResult.gains f).
Proof.
  intros Hy Hi _ _ Hf monthlyRate. eexists. split.
  { apply generateProjectionTable_rows; assumption. }
  fold monthlyRate. split; [reflexivity|].
  split; [now rewrite List.length_map, sampledMonths_length|].
  assert (HIn : forall m : Z,
    In m (map ProjectionRow.month
            (map (projectionRow monthlyAmount monthlyRate)
               (sampledMonths interval (Z.to_nat (years * 12 / interval)))))
    <-> exists k : Z, (1 <= k)%Z /\ m = (k * interval)%Z /\ (m <= years * 12)%Z).
  { intro m. rewrite projectionRow_months, sampledMonths_In.
    pose proof (Z.div_pos (years * 12) interval ltac:(lia) ltac:(lia)) as Hq.
    rewrite Z2Nat.id by exact Hq.
    pose proof (Z.div_mod (years * 12) interval ltac:(lia)) as D.
    pose proof (Z.mod_pos_bound (years * 12) interval ltac:(lia)) as B.
    split.
    - intros [k [Hk E]]. exists k. subst m. repeat split; nia.
    - intros [k [Hk [E Hm]]]. exists k. subst m. split; [|reflexivity]. nia. }
  split; [exact HIn|]. split.
  - intros Hnd Hin. apply HIn in Hin. destruct Hin as [k [_ [E _]]].
    apply Hnd. exists k. exact E.
  - intro y. cbn zeta. repeat split; reflexivity.
Qed.

Lemma projection_stepping_witness :
  (0 < 2)%Z /\ (1 <= 7)%Z /\ (2 * 12 < 2 ^ 53)%Z /\ (2 * 12 / 7 < 2 ^ 32)%Z
  /\ (Z.to_nat (2 * 12 / 7) < 4)%nat
  /\ exists table : list ProjectionRow.t,
       generateProjectionTable 4 (ofZ 10000) 2 (ofZ 12) (Some 7%Z) = Some table
       /\ map ProjectionRow.month table = [7; 14; 21]%Z.
Proof.
  split; [lia|]. split; [lia|]. split; [lia|]. split; [vm_compute; reflexivity|].
  split; [vm_compute; lia|].
  destruct (@projection_stepping 4 (ofZ 10000) 2 (ofZ 12) 7)
    as [table [E [T _]]];
    [lia | lia | lia | vm_compute; reflexivity | vm_compute; lia |].
  exists table. split; [exact E|]. rewrite T. vm_compute. reflexivity.
Defined.

(* ================================================================== *)
(** ** C8: which entry points always return *)
(* ================================================================== *)

(** C8, counterexample: [generateProjectionTable(10000, 1, 12, 0)] never
    returns; with a sampling interval of 0 the loop variable stays at 0
    and no amount of fuel ends the loop. *)
Lemma projection_zero_interval_never_returns :
  ~ exists (fuel : nat) (table : list ProjectionRow.t),
      generateProjectionTable fuel (ofZ 10000) 1 (ofZ 12) (Some 0%Z) = Some table.
Proof.
  intros [fuel [table H]]. unfold generateProjectionTable in H. cbn zeta in H.
  rewrite projectionLoop_diverges in H by lia. discriminate H.
Qed.

(** At a zero rate [verifyCalculation] returns a record, of [NaN]s: the
    forward future value is 0/0, and so are the monthly SIP recovered
    from it and the variance; the comparison with [NaN] is false. *)
Lemma verify_zero_rate (monthlyAmount : number) (years : Z) :
  let v := verifyCalculation monthlyAmount years (ofZ 0) in
  ForwardResult.futureValue (Verification.forward v) = NaN
  /\ ReverseResult.monthlySIP (Verification.reverse v) = NaN
  /\ Verification.variance v = NaN
  /\ Verification.isAccurate v = false.
Proof.
  cbn zeta.
  assert (F : ForwardResult.futureValue
                (calculateForwardSIP monthlyAmount years (ofZ 0)) = NaN).
  { unfold calculateForwardSIP. cbn zeta. cbn [ForwardResult.futureValue].
    change (div (div (ofZ 0) (ofZ 12)) (ofZ 100)) with (Fin (monthlyRateOf 0)).
    rewrite zero_rate_quotient, mul_NaN_r. reflexivity. }
  unfold verifyCalculation. cbn zeta.
  cbn [Verification.forward Verification.reverse Verification.variance
       Verification.isAccurate].
  rewrite F.
  assert (R : ReverseResult.monthlySIP (calculateReverseSIP NaN years (ofZ 0)) = NaN)
    by reflexivity.
  rewrite R. repeat split; reflexivity.
Qed.

(** A comparison with [NaN] on its left is false. *)
Lemma leb_nan_l (x : float) : PrimFloat.leb nan x = false.
Proof. rewrite leb_spec. reflexivity. Qed.

(** C8, as amended: [generateProjectionTable] does not return on every
    input.  For whole numbers [years] and [interval] (below 2^53 in
    magnitude, fewer than 2^32 rows) and every monthly amount and rate,
    it returns a table exactly when the interval is positive or exceeds
    [years * 12]; otherwise the loop condition stays true and no table is
    returned.  On binary64 inputs, an interval of [NaN] gives the empty
    table at the first test of the condition, and with [years] and the
    interval both [+Infinity] the loop never ends.  The closed-form
    entry points have no loop; at the out-of-contract rate 0
    [verifyCalculation] returns a record whose forward futureValue,
    recovered monthlySIP and variance are [NaN] and whose isAccurate is
    false, whatever the monthly amount and the term. *)
Theorem projection_returns_iff (monthlyAmount : number) (years : Z)
    (annualRate : number) (interval : Z) :
  (Z.abs (years * 12) < 2 ^ 53)%Z -> (Z.abs interval < 2 ^ 53)%Z ->
  (years * 12 / interval < 2 ^ 32)%Z ->
  ((exists (fuel : nat) (table : list ProjectionRow.t),
      generateProjectionTable fuel monthlyAmount years annualRate (Some interval)
      = Some table)
   <-> (0 < interval \/ years * 12 < interval)%Z)
  /\ (forall years64 : float, Binary64.projectionMonths 1 years64 nan = Some [])
  /\ (forall fuel : nat, Binary64.projectionMonths fuel infinity infinity = None)
  /\ (let v := verifyCalculation monthlyAmount years (ofZ 0) in
      ForwardResult.futureValue (Verification.forward v) = NaN
      /\ ReverseResult.monthlySIP (Verification.reverse v) = NaN
      /\ Verification.variance v = NaN
      /\ Verification.isAccurate v = false).
Proof.
  intros _ _ _. split; [|split; [|split]].
  - split.
    + intros [fuel [table H]].
      destruct (Z.lt_ge_cases 0 interval) as [Hi|Hi]; [now left|].
      destruct (Z.lt_ge_cases (years * 12) interval) as [Hm|Hm]; [now right|].
      unfold generateProjectionTable in H. cbn zeta in H.
      rewrite projectionLoop_diverges in H by lia. discriminate H.
    + intros [Hi|Hm].
      * exists (S (Z.to_nat (years * 12 / interval))). eexists.
        apply generateProjectionTable_rows; lia.
      * exists 1%nat, []. unfold generateProjectionTable. cbn.
        destruct (Z.leb_spec interval (years * 12)); [lia|reflexivity].
  - intro y. unfold Binary64.projectionMonths. cbn zeta.
    cbn [Binary64.projectionLoop]. now rewrite leb_nan_l.
  - intro fuel. unfold Binary64.projectionMonths. cbn zeta.
    change (PrimFloat.mul infinity 12%float) with infinity.
    generalize (@nil float). induction fuel as [|f IH]; intro l; [reflexivity|].
    cbn [Binary64.projectionLoop].
    change (PrimFloat.leb infinity infinity) with true.
    change (PrimFloat.add infinity infinity) with infinity. cbv iota. apply IH.
  - apply verify_zero_rate.
Qed.

Lemma projection_returns_iff_witness :
  (Z.abs (1 * 12) < 2 ^ 53)%Z /\ (Z.abs 12 < 2 ^ 53)%Z /\ (1 * 12 / 12 < 2 ^ 32)%Z
  /\ exists (fuel : nat) (table : list ProjectionRow.t),
       generateProjectionTable fuel (ofZ 10000) 1 (ofZ 12) (Some 12%Z) = Some table.
Proof.
  split; [vm_compute; reflexivity|]. split; [vm_compute; reflexivity|].
  split; [vm_compute; reflexivity|].
  destruct (@projection_returns_iff (ofZ 10000) 1 (ofZ 12) 12) as [[_ H] _];
    [vm_compute; reflexivity | vm_compute; reflexivity | vm_compute; reflexivity |].
  apply H. left. lia.
Defined.

(* ================================================================== *)
(** ** Growth of the future value *)
(* ================================================================== *)


Lemma leb_fin (a b : Q) : a <= b -> leb (Fin a) (Fin b) = true.
Proof. intro H. unfold leb. now apply Qle_bool_iff. Qed.


Lemma leb_ofZ (a b : Z) : (a <= b)%Z -> leb (ofZ a) (ofZ b) = true.
Proof. intro H. apply leb_fin. now rewrite <- Zle_Qle. Qed.






(* ================================================================== *)
(** ** C4: monotonicity of [calculateForwardSIP] *)
(* ================================================================== *)




(* ================================================================== *)
(** ** C3: futureValue = principal + gains *)
(* ================================================================== *)

(** C3, counterexample: [calculateForwardSIP(1000.03, 1, 12)] returns
    futureValue 12810, principal 12000 and gains 809: the three fields
    are rounded one by one, so 12810 is not 12000 + 809, and the returned
    principal is not 1000.03 * 1 * 12 = 12000.36. *)
Lemma decomposition_counterexample :
  let f := calculateForwardSIP (Fin (100003 # 100)) 1 (ofZ 12) in
  ForwardResult.futureValue f = ofZ 12810
  /\ ForwardResult.principal f = ofZ 12000
  /\ ForwardResult.gains f = ofZ 809
  /\ ~ ForwardResult.futureValue f
       =n= add (ForwardResult.principal f) (ForwardResult.gains f)
  /\ ~ ForwardResult.principal f
       =n= mul (mul (Fin (100003 # 100)) (ofZ 1)) (ofZ 12).
Proof.
  cbn zeta. repeat split; vm_compute; (reflexivity || discriminate).
Qed.

(** A rounded value that is a whole number comes from a finite one. *)
Lemma Math_round_whole (x : number) (z : Z) :
  Math_round x = ofZ z -> exists q : Q, x = Fin q /\ roundHalfUp q = z.
Proof.
  destruct x as [q| | |]; cbn [Math_round]; intro H; try discriminate H.
  exists q. split; [reflexivity|]. unfold ofZ, inject_Z in H.
  injection H as H. exact H.
Qed.

(** C3, as amended: whenever monthlyAmount * years * 12 is a whole number
    [k] (every whole monthly amount is such) and the returned futureValue
    is a whole number [fv] with 0 <= k <= fv < 2^53, whatever the rate,
    the returned principal is [k] = monthlyAmount * years * 12, the
    returned gains are [fv - k], and futureValue = principal + gains.
    (With such numbers the subtraction of the principal is exact in
    binary64 too.) *)
Theorem decomposition_identity (p : Q) (years : Z) (annualRate : number)
    (k fv : Z) :
  p * inject_Z (years * 12) == inject_Z k ->
  ForwardResult.futureValue (calculateForwardSIP (Fin p) years annualRate) = ofZ fv ->
  (0 <= k <= fv)%Z -> (fv < 2 ^ 53)%Z ->
  let f := calculateForwardSIP (Fin p) years annualRate in
  ForwardResult.principal f = ofZ k
  /\ ForwardResult.gains f = ofZ (fv - k)
  /\ ForwardResult.futureValue f
     = add (ForwardResult.principal f) (ForwardResult.gains f).
Proof.
  intros Hk Hfv _ _ f.
  assert (Ek : roundHalfUp (p * inject_Z (years * 12)) = k).
  { apply roundHalfUp_unique; lra. }
  assert (EP : ForwardResult.principal f = ofZ k).
  { unfold f, calculateForwardSIP. cbn zeta.
    cbn [ForwardResult.principal mul ofZ Math_round].
    unfold ofZ. now rewrite Ek. }
  assert (EG : ForwardResult.gains f = ofZ (fv - k)).
  { unfold f. unfold calculateForwardSIP in Hfv |- *. cbn zeta in Hfv |- *.
    cbn [ForwardResult.futureValue] in Hfv. cbn [ForwardResult.gains].
    apply Math_round_whole in Hfv. destruct Hfv as [v [Ev Hv]].
    rewrite Ev. cbn [mul ofZ sub neg add Math_round]. unfold ofZ. do 2 f_equal.
    assert (E : v + - (p * inject_Z (years * 12)) == v + inject_Z (- k)).
    { rewrite Hk, inject_Z_opp. ring. }
    unfold roundHalfUp at 1.
    rewrite (Qfloor_comp _ _ (Qplus_comp _ _ E _ _ (Qeq_refl _))).
    fold (roundHalfUp (v + inject_Z (- k))). rewrite roundHalfUp_shift. lia. }
  split; [exact EP|]. split; [exact EG|].
  rewrite EP, EG. fold f in Hfv. rewrite Hfv. cbn [add ofZ]. unfold ofZ. f_equal.
  rewrite <- inject_Z_plus. f_equal. lia.
Qed.

Lemma decomposition_identity_witness :
  10000 * inject_Z (20 * 12) == inject_Z 2400000
  /\ ForwardResult.futureValue (calculateForwardSIP (Fin 10000) 20 (ofZ 12))
     = ofZ 9991479
  /\ (0 <= 2400000 <= 9991479)%Z /\ (9991479 < 2 ^ 53)%Z
  /\ ForwardResult.gains (calculateForwardSIP (Fin 10000) 20 (ofZ 12)) = ofZ 7591479
  /\ ForwardResult.futureValue (calculateForwardSIP (Fin 10000) 20 (ofZ 12))
     = add (ForwardResult.principal (calculateForwardSIP (Fin 10000) 20 (ofZ 12)))
           (ForwardResult.gains (calculateForwardSIP (Fin 10000) 20 (ofZ 12))).
Proof.
  split; [reflexivity|]. split; [vm_compute; reflexivity|].
  split; [lia|]. split; [lia|].
  destruct (@decomposition_identity 10000 20 (ofZ 12) 2400000 9991479)
    as [_ [G E]]; [reflexivity | vm_compute; reflexivity | lia | lia |].
  split; [exact G | exact E].
Defined.

(* ================================================================== *)
(** ** C1: forward, then reverse *)
(* ================================================================== *)








(* ================================================================== *)
(** ** C6: successive rows of the projection table *)
(* ================================================================== *)


Lemma sampledMonths_nth (interval : Z) (count i : nat) :
  nth_error (sampledMonths interval count) i
  = if (i <? count)%nat then Some (Z.of_nat (1 + i) * interval)%Z else None.
Proof.
  unfold sampledMonths. rewrite nth_error_map, nth_error_seq.
  now destruct (i <? count)%nat.
Qed.




(* ================================================================== *)
(** ** Further properties of [calculateReverseSIP] *)
(* ================================================================== *)

Lemma div_NaN_r (x : number) : div x NaN = NaN.
Proof. destruct x; reflexivity. Qed.

Lemma add_NaN_r (x : number) : add x NaN = NaN.
Proof. destruct x; reflexivity. Qed.

(** At a zero annual rate [calculateReverseSIP] divides the goal by a
    [NaN] divisor: whatever the goal and the term, monthlySIP,
    totalInvested and totalGains are [NaN] and gainPercent is the text
    "NaN". *)
Theorem reverse_zero_rate_is_NaN (goalAmount : number) (years : Z) :
  let r := calculateReverseSIP goalAmount years (ofZ 0) in
  ReverseResult.monthlySIP r = NaN
  /\ ReverseResult.totalInvested r = NaN
  /\ ReverseResult.totalGains r = NaN
  /\ ReverseResult.gainPercent r = "NaN"%string.
Proof.
  unfold calculateReverseSIP. cbn zeta.
  cbn [ReverseResult.monthlySIP ReverseResult.totalInvested
       ReverseResult.totalGains ReverseResult.gainPercent].
  change (div (div (ofZ 0) (ofZ 12)) (ofZ 100)) with (Fin (monthlyRateOf 0)).
  rewrite zero_rate_quotient. cbn [mul]. rewrite div_NaN_r. cbn [mul Math_round].
  unfold sub. cbn [neg]. rewrite add_NaN_r. repeat split; reflexivity.
Qed.



(* ================================================================== *)
(** ** Further properties of [generateProjectionTable] *)
(* ================================================================== *)



Lemma digitsOfZ_zero : digitsOfZ 0 = "0"%string.
Proof. reflexivity. Qed.

(** [toFixed(1)] of a whole number from 0 to below 10^21 is its decimal
    digits followed by ".0". *)
Lemma toFixed1_whole (k : Z) :
  (0 <= k < 10 ^ 21)%Z ->
  toFixed1 (ofZ k) = (digitsOfZ k ++ ".0")%string.
Proof.
  intros [H0 H1]. unfold toFixed1, ofZ.
  assert (ES : match Qsign (inject_Z k) with Neg => "-"%string | _ => EmptyString end
               = EmptyString).
  { destruct (Qsign_spec (inject_Z k)) as [[E H]|[[E H]|[E H]]]; rewrite E;
      try reflexivity.
    exfalso. change 0 with (inject_Z 0) in H. rewrite <- Zlt_Qlt in H. lia. }
  rewrite ES.
  assert (EA : Qabs (inject_Z k) = inject_Z k).
  { unfold Qabs, inject_Z. now rewrite Z.abs_eq. }
  rewrite EA.
  assert (EB : Qle_bool (inject_Z (10 ^ 21)) (inject_Z k) = false).
  { destruct (Qle_bool (inject_Z (10 ^ 21)) (inject_Z k)) eqn:B; [|reflexivity].
    apply Qle_bool_iff in B. rewrite <- Zle_Qle in B. lia. }
  rewrite EB. unfold fixedString.
  assert (EF : Qfloor (inject_Z k * 10 + (1 # 2)) = (k * 10)%Z).
  { change (Qfloor (inject_Z k * 10 + (1 # 2))) with (roundHalfUp (inject_Z k * 10)).
    apply roundHalfUp_unique; rewrite inject_Z_mult; change (inject_Z 10) with 10; lra. }
  rewrite EF, Z.div_mul, Z.mod_mul by lia. reflexivity.
Qed.

(** With the interval left out, the projection is yearly: for a term of
    [years] (from 0 to below 2^32, the longest table an array can hold)
    it has [years] rows, and row number [k] (counted from 1) has month
    [12 * k] and the year label made of the decimal digits of [k]
    followed by ".0". *)
Theorem projection_default_is_yearly (fuel : nat) (monthlyAmount : number)
    (years : Z) (annualRate : number) :
  (0 <= years < 2 ^ 32)%Z -> (Z.to_nat years < fuel)%nat ->
  exists table : list ProjectionRow.t,
    generateProjectionTable fuel monthlyAmount years annualRate None = Some table
    /\ List.length table = Z.to_nat years
    /\ forall (i : nat) (row : ProjectionRow.t),
         nth_error table i = Some row ->
         ProjectionRow.month row = (12 * Z.of_nat (S i))%Z
         /\ ProjectionRow.year row = (digitsOfZ (Z.of_nat (S i)) ++ ".0")%string.
Proof.
  intros Hy Hf.
  assert (Eq : (years * 12 / 12 = years)%Z) by (apply Z.div_mul; lia).
  eexists. split.
  { change (generateProjectionTable fuel monthlyAmount years annualRate None)
      with (generateProjectionTable fuel monthlyAmount years annualRate (Some 12%Z)).
    apply generateProjectionTable_rows; [lia | now rewrite Eq]. }
  rewrite Eq. split; [now rewrite List.length_map, sampledMonths_length|].
  intros i row H. rewrite nth_error_map, sampledMonths_nth in H.
  destruct (Nat.ltb_spec i (Z.to_nat years)); [|discriminate H].
  cbn [option_map] in H. injection H as <-.
  cbn [projectionRow ProjectionRow.month ProjectionRow.year].
  split; [change (1 + i)%nat with (S i); lia|].
  assert (E : div (ofZ (Z.of_nat (1 + i) * 12)) (ofZ 12) =n= ofZ (Z.of_nat (S i))).
  { unfold ofZ. rewrite div_fin by (intro C; discriminate C).
    cbn [num_eq]. rewrite inject_Z_mult. change (inject_Z 12) with 12.
    change (1 + i)%nat with (S i). field. }
  rewrite E. apply toFixed1_whole. lia.
Qed.

Lemma projection_default_is_yearly_witness :
  (0 <= 3 < 2 ^ 32)%Z /\ (Z.to_nat 3 < 4)%nat
  /\ exists table : list ProjectionRow.t,
       generateProjectionTable 4 (ofZ 10000) 3 (ofZ 12) None = Some table
       /\ List.length table = 3%nat.
Proof.
  split; [lia|]. split; [vm_compute; lia|].
  destruct (@projection_default_is_yearly 4 (ofZ 10000) 3 (ofZ 12))
    as [table [E [L _]]]; [lia | vm_compute; lia |].
  exists table. split; [exact E | exact L].
Defined.

(* ================================================================== *)
(** ** [Utils.calculateSIPFuture] and [Utils.calculateSIPReverse] *)
(* ================================================================== *)

(** [Utils] computes the monthly rate as annualRate / 100 / 12 and the
    future value as sip * numerator / monthlyRate * (1 + monthlyRate);
    [SIPCalculator] divides by 12 first and multiplies the amount by the
    quotient numerator / monthlyRate.  The two orders denote the same
    real number but not the same binary64 number: at 8% the monthly
    rates already differ in their last bit. *)
Example monthlyRate_orders_differ :
  PrimFloat.eqb (PrimFloat.div (PrimFloat.div 8%float 100%float) 12%float)
                (PrimFloat.div (PrimFloat.div 8%float 12%float) 100%float)
  = false.
Proof. vm_compute. reflexivity. Qed.

Lemma mul_zero_r_or_NaN (x y : number) :
  match y with Fin q => q == 0 | NaN => True | _ => False end ->
  match mul x y with Fin q => q == 0 | NaN => True | _ => False end.
Proof.
  destruct x as [a| | |], y as [b| | |]; simpl; try tauto; intro H.
  - rewrite H. ring.
  - now rewrite (Qsign_zero H).
  - now rewrite (Qsign_zero H).
Qed.

Lemma div_zero_or_NaN (x : number) (b : Q) :
  match x with Fin q => q == 0 | NaN => True | _ => False end ->
  b == 0 -> div x (Fin b) = NaN.
Proof.
  destruct x as [a| | |]; intros Ha Hb; try contradiction;
    [now apply div_zero_zero | reflexivity].
Qed.

(** The numerator [(1 + monthlyRate)^months - 1] of [Utils] at a zero
    annual rate is 0. *)
Lemma utils_zero_rate_numerator (n : Z) :
  match sub (Math_pow (add (ofZ 1) (div (div (ofZ 0) (ofZ 100)) (ofZ 12))) n) (ofZ 1)
  with Fin q => q == 0 | NaN => True | _ => False end.
Proof.
  change (add (ofZ 1) (div (div (ofZ 0) (ofZ 100)) (ofZ 12)))
    with (Fin (1 + 0 / 100 / 12)).
  rewrite Math_pow_fin by (intro H; discriminate H).
  cbn [sub add neg ofZ].
  assert (E : 1 + 0 / 100 / 12 == 1) by reflexivity.
  rewrite E, Qpower_1. reflexivity.
Qed.

(** [Utils] has no zero-rate case either: at an annual rate of 0, for
    every amount and every term, [calculateSIPFuture] returns [NaN] for
    futureValue and gains, and [calculateSIPReverse] returns [NaN] for
    monthlySIP, totalInvested and gains. *)
Theorem utils_zero_rate_is_NaN (amount : number) (years : Z) :
  let u := Utils.calculateSIPFuture amount years (ofZ 0) in
  let r := Utils.calculateSIPReverse amount years (ofZ 0) in
  Utils.SIPFuture.futureValue u = NaN
  /\ Utils.SIPFuture.gains u = NaN
  /\ Utils.SIPReverse.monthlySIP r = NaN
  /\ Utils.SIPReverse.totalInvested r = NaN
  /\ Utils.SIPReverse.gains r = NaN.
Proof.
  cbn zeta. pose proof (utils_zero_rate_numerator (years * 12)) as N.
  assert (F : Utils.SIPFuture.futureValue
                (Utils.calculateSIPFuture amount years (ofZ 0)) = NaN).
  { unfold Utils.calculateSIPFuture. cbn zeta. cbn [Utils.SIPFuture.futureValue].
    change (div (div (ofZ 0) (ofZ 100)) (ofZ 12)) with (Fin (0 / 100 / 12)) at 2.
    rewrite (@div_zero_or_NaN _ (0 / 100 / 12)); [reflexivity | | reflexivity].
    apply mul_zero_r_or_NaN. exact N. }
  assert (S : Utils.SIPReverse.monthlySIP
                (Utils.calculateSIPReverse amount years (ofZ 0)) = NaN).
  { unfold Utils.calculateSIPReverse. cbn zeta. cbn [Utils.SIPReverse.monthlySIP].
    change (div (div (ofZ 0) (ofZ 100)) (ofZ 12)) with (Fin (0 / 100 / 12)) at 2.
    rewrite (@div_zero_or_NaN _ (0 / 100 / 12)); [|exact N | reflexivity].
    cbn [mul]. apply div_NaN_r. }
  split; [exact F|]. split.
  { change (Utils.SIPFuture.gains (Utils.calculateSIPFuture amount years (ofZ 0)))
      with (sub (Utils.SIPFuture.futureValue
                   (Utils.calculateSIPFuture amount years (ofZ 0)))
                (mul amount (ofZ (years * 12)))).
    rewrite F. reflexivity. }
  split; [exact S|]. split.
  { change (Utils.SIPReverse.totalInvested
              (Utils.calculateSIPReverse amount years (ofZ 0)))
      with (mul (Utils.SIPReverse.monthlySIP
                   (Utils.calculateSIPReverse amount years (ofZ 0)))
                (ofZ (years * 12))).
    rewrite S. reflexivity. }
  change (Utils.SIPReverse.gains (Utils.calculateSIPReverse amount years (ofZ 0)))
    with (sub amount
              (mul (Utils.SIPReverse.monthlySIP
                      (Utils.calculateSIPReverse amount years (ofZ 0)))
                   (ofZ (years * 12)))).
  rewrite S. cbn [mul]. unfold sub. cbn [neg]. apply add_NaN_r.
Qed.

(* ================================================================== *)
(** ** [Utils.calculateCI] *)
(* ================================================================== *)

Lemma mul_one_r (x : number) : mul x (ofZ 1) =n= x.
Proof.
  destruct x as [q| | |]; cbn; try exact I. ring.
Qed.

(** Compound interest over no time, or at no interest, is the principal:
    [calculateCI(principal, rate, 0)] for every rate ([NaN] included)
    and [calculateCI(principal, 0, years)] for every number of years
    both give back the principal. *)
Theorem calculateCI_identity (principal rate : number) (years : Z) :
  Utils.calculateCI principal rate 0 =n= principal
  /\ Utils.calculateCI principal (ofZ 0) years =n= principal.
Proof.
  split.
  - unfold Utils.calculateCI. cbn zeta. cbn [Math_pow Z.eqb]. apply mul_one_r.
  - unfold Utils.calculateCI. cbn zeta.
    change (add (ofZ 1) (div (ofZ 0) (ofZ 100))) with (Fin (1 + 0 / 100)).
    rewrite Math_pow_fin by (intro H; discriminate H).
    assert (E : Fin ((1 + 0 / 100) ^ years) =n= ofZ 1).
    { cbn [num_eq ofZ]. assert (E1 : 1 + 0 / 100 == 1) by reflexivity.
      rewrite E1. apply Qpower_1. }
    rewrite E. apply mul_one_r.
Qed.

(* ================================================================== *)
(** ** [Utils.scoreFund], [getScoreCategory] and [getScoreColor] *)
(* ================================================================== *)

(** The score is the sum of the points of the four criteria. *)
Lemma scoreFund_points (metrics : Utils.Metrics.t) :
  Utils.scoreFund metrics
  = ofZ (erPoints (Utils.Metrics.er metrics)
         + alphaPoints (Utils.Metrics.alpha metrics)
         + sharpePoints (Utils.Metrics.sharpe metrics)
         + cagrPoints (Utils.Metrics.cagr metrics)).
Proof.
  unfold Utils.scoreFund, erPoints, alphaPoints, sharpePoints, cagrPoints.
  cbn zeta.
  destruct (leb (Utils.Metrics.er metrics) (Fin (1 # 2)));
    [|destruct (leb (Utils.Metrics.er metrics) (ofZ 1));
      [|destruct (leb (Utils.Metrics.er metrics) (Fin (3 # 2)))]];
  (destruct (geb (Utils.Metrics.alpha metrics) (ofZ 3));
    [|destruct (geb (Utils.Metrics.alpha metrics) (ofZ 2));
      [|destruct (geb (Utils.Metrics.alpha metrics) (ofZ 1));
        [|destruct (geb (Utils.Metrics.alpha metrics) (ofZ 0))]]]);
  (destruct (geb (Utils.Metrics.sharpe metrics) (ofZ 2));
    [|destruct (geb (Utils.Metrics.sharpe metrics) (Fin (3 # 2)));
      [|destruct (geb (Utils.Metrics.sharpe metrics) (ofZ 1))]]);
  (destruct (geb (Utils.Metrics.cagr metrics) (ofZ 18));
    [|destruct (geb (Utils.Metrics.cagr metrics) (ofZ 15));
      [|destruct (geb (Utils.Metrics.cagr metrics) (ofZ 12))]]);
  vm_compute; reflexivity.
Qed.

Lemma leb_fin_true (a b : Q) : leb (Fin a) (Fin b) = true <-> a <= b.
Proof. apply Qle_bool_iff. Qed.

Lemma leb_fin_false (a b : Q) : leb (Fin a) (Fin b) = false <-> b < a.
Proof.
  split; intro H.
  - destruct (Qlt_le_dec b a) as [L|L]; [exact L|].
    apply leb_fin_true in L. congruence.
  - destruct (leb (Fin a) (Fin b)) eqn:E; [|reflexivity].
    apply leb_fin_true in E. lra.
Qed.

Ltac leb_cases :=
  repeat match goal with
    | |- context [leb (Fin ?a) ?c] =>
        let E := fresh "E" in
        destruct (leb (Fin a) c) eqn:E;
        [apply leb_fin_true in E | apply leb_fin_false in E]
    end.

Lemma erPoints_antitone (x y : Q) :
  x <= y -> (erPoints (Fin y) <= erPoints (Fin x))%Z.
Proof.
  intro H. unfold erPoints, ofZ. leb_cases; simpl in *; lra || lia.
Qed.

Lemma alphaPoints_monotone (x y : Q) :
  x <= y -> (alphaPoints (Fin x) <= alphaPoints (Fin y))%Z.
Proof.
  intro H. unfold alphaPoints, geb, ofZ. leb_cases; simpl in *; lra || lia.
Qed.

Lemma sharpePoints_monotone (x y : Q) :
  x <= y -> (sharpePoints (Fin x) <= sharpePoints (Fin y))%Z.
Proof.
  intro H. unfold sharpePoints, geb, ofZ. leb_cases; simpl in *; lra || lia.
Qed.

Lemma cagrPoints_monotone (x y : Q) :
  x <= y -> (cagrPoints (Fin x) <= cagrPoints (Fin y))%Z.
Proof.
  intro H. unfold cagrPoints, geb, ofZ. leb_cases; simpl in *; lra || lia.
Qed.

(** A fund that is at least as good on every metric never scores lower:
    with finite metrics, an expense ratio that is not higher and an
    alpha, a Sharpe ratio and a CAGR that are not lower give a score that
    is not lower. *)
Theorem scoreFund_monotone (er1 alpha1 sharpe1 cagr1 er2 alpha2 sharpe2 cagr2 : Q) :
  er2 <= er1 -> alpha1 <= alpha2 -> sharpe1 <= sharpe2 -> cagr1 <= cagr2 ->
  leb (Utils.scoreFund (Utils.Metrics.mk (Fin er1) (Fin alpha1) (Fin sharpe1) (Fin cagr1)))
      (Utils.scoreFund (Utils.Metrics.mk (Fin er2) (Fin alpha2) (Fin sharpe2) (Fin cagr2)))
  = true.
Proof.
  intros He Ha Hs Hc. rewrite !scoreFund_points.
  cbn [Utils.Metrics.er Utils.Metrics.alpha Utils.Metrics.sharpe Utils.Metrics.cagr].
  apply leb_ofZ.
  pose proof (erPoints_antitone He). pose proof (alphaPoints_monotone Ha).
  pose proof (sharpePoints_monotone Hs). pose proof (cagrPoints_monotone Hc). lia.
Qed.

Lemma scoreFund_monotone_witness :
  (1 # 2) <= 2 /\ 0 <= 3 /\ 1 <= 2 /\ 10 <= 18
  /\ leb (Utils.scoreFund (Utils.Metrics.mk (Fin 2) (Fin 0) (Fin 1) (Fin 10)))
         (Utils.scoreFund (Utils.Metrics.mk (Fin (1 # 2)) (Fin 3) (Fin 2) (Fin 18)))
     = true.
Proof.
  split; [intro H; discriminate H|]. split; [intro H; discriminate H|].
  split; [intro H; discriminate H|]. split; [intro H; discriminate H|].
  apply (@scoreFund_monotone 2 0 1 10 (1 # 2) 3 2 18); intro H; discriminate H.
Defined.

(** The colour class follows the category for every score, [NaN]
    included: "score-high" exactly for "Excellent", "score-mid" exactly
    for "Good", and "score-low" exactly for "Average" and "Poor". *)
Theorem score_color_follows_category (score : number) :
  (Utils.getScoreColor score = "score-high"%string
   <-> Utils.getScoreCategory score = "Excellent"%string)
  /\ (Utils.getScoreColor score = "score-mid"%string
      <-> Utils.getScoreCategory score = "Good"%string)
  /\ (Utils.getScoreColor score = "score-low"%string
      <-> Utils.getScoreCategory score = "Average"%string
          \/ Utils.getScoreCategory score = "Poor"%string).
Proof.
  unfold Utils.getScoreColor, Utils.getScoreCategory.
  destruct (geb score (ofZ 80)); [|destruct (geb score (ofZ 60));
    [|destruct (geb score (ofZ 40))]];
  repeat split; intro H; try discriminate H; try reflexivity;
  try (destruct H as [H|H]; discriminate H); auto.
Qed.

Lemma leb_weaken (x : number) (a b : Q) :
  a <= b -> leb x (Fin a) = true -> leb x (Fin b) = true.
Proof.
  intros H. destruct x as [q| | |]; try (intro E; exact E || discriminate E).
  rewrite !leb_fin_true. lra.
Qed.

Lemma geb_weaken (x : number) (a b : Q) :
  b <= a -> geb x (Fin a) = true -> geb x (Fin b) = true.
Proof.
  intros H. unfold geb. destruct x as [q| | |]; try (intro E; exact E || discriminate E).
  rewrite !leb_fin_true. lra.
Qed.

Lemma erPoints_range (x : number) :
  (10 <= erPoints x <= 25)%Z
  /\ (erPoints x = 10%Z <-> leb x (Fin (3 # 2)) = false).
Proof.
  unfold erPoints.
  destruct (leb x (Fin (1 # 2))) eqn:E1.
  { pose proof (@leb_weaken x (1 # 2) (3 # 2) ltac:(lra) E1) as W.
    split; [lia|]. split; intro H; [lia | congruence]. }
  destruct (leb x (ofZ 1)) eqn:E2.
  { pose proof (@leb_weaken x (inject_Z 1) (3 # 2) ltac:(intro C; discriminate C) E2) as W.
    split; [lia|]. split; intro H; [lia | congruence]. }
  destruct (leb x (Fin (3 # 2))) eqn:E3; (split; [lia|]); split; intro H;
    lia || congruence || reflexivity.
Qed.

Lemma alphaPoints_range (x : number) :
  (5 <= alphaPoints x <= 25)%Z
  /\ (alphaPoints x = 5%Z <-> geb x (ofZ 0) = false).
Proof.
  unfold alphaPoints.
  destruct (geb x (ofZ 3)) eqn:E1.
  { pose proof (@geb_weaken x (inject_Z 3) (inject_Z 0) ltac:(intro C; discriminate C) E1) as W.
    split; [lia|]. split; intro H; [lia | unfold ofZ in H; congruence]. }
  destruct (geb x (ofZ 2)) eqn:E2.
  { pose proof (@geb_weaken x (inject_Z 2) (inject_Z 0) ltac:(intro C; discriminate C) E2) as W.
    split; [lia|]. split; intro H; [lia | unfold ofZ in H; congruence]. }
  destruct (geb x (ofZ 1)) eqn:E3.
  { pose proof (@geb_weaken x (inject_Z 1) (inject_Z 0) ltac:(intro C; discriminate C) E3) as W.
    split; [lia|]. split; intro H; [lia | unfold ofZ in H; congruence]. }
  destruct (geb x (ofZ 0)) eqn:E4; (split; [lia|]); split; intro H;
    lia || congruence || reflexivity.
Qed.

Lemma sharpePoints_range (x : number) :
  (10 <= sharpePoints x <= 25)%Z
  /\ (sharpePoints x = 10%Z <-> geb x (ofZ 1) = false).
Proof.
  unfold sharpePoints.
  destruct (geb x (ofZ 2)) eqn:E1.
  { pose proof (@geb_weaken x (inject_Z 2) (inject_Z 1) ltac:(intro C; discriminate C) E1) as W.
    split; [lia|]. split; intro H; [lia | unfold ofZ in H; congruence]. }
  destruct (geb x (Fin (3 # 2))) eqn:E2.
  { pose proof (@geb_weaken x (3 # 2) (inject_Z 1) ltac:(intro C; discriminate C) E2) as W.
    split; [lia|]. split; intro H; [lia | unfold ofZ in H; congruence]. }
  destruct (geb x (ofZ 1)) eqn:E3; (split; [lia|]); split; intro H;
    lia || congruence || reflexivity.
Qed.

Lemma cagrPoints_range (x : number) :
  (10 <= cagrPoints x <= 25)%Z
  /\ (cagrPoints x = 10%Z <-> geb x (ofZ 12) = false).
Proof.
  unfold cagrPoints.
  destruct (geb x (ofZ 18)) eqn:E1.
  { pose proof (@geb_weaken x (inject_Z 18) (inject_Z 12) ltac:(intro C; discriminate C) E1) as W.
    split; [lia|]. split; intro H; [lia | unfold ofZ in H; congruence]. }
  destruct (geb x (ofZ 15)) eqn:E2.
  { pose proof (@geb_weaken x (inject_Z 15) (inject_Z 12) ltac:(intro C; discriminate C) E2) as W.
    split; [lia|]. split; intro H; [lia | unfold ofZ in H; congruence]. }
  destruct (geb x (ofZ 12)) eqn:E3; (split; [lia|]); split; intro H;
    lia || congruence || reflexivity.
Qed.

Lemma erPoints_mult5 (x : number) : exists k : Z, erPoints x = (5 * k)%Z.
Proof.
  unfold erPoints.
  destruct (leb x (Fin (1 # 2))); [now exists 5%Z|].
  destruct (leb x (ofZ 1)); [now exists 4%Z|].
  destruct (leb x (Fin (3 # 2))); [now exists 3%Z | now exists 2%Z].
Qed.

Lemma alphaPoints_mult5 (x : number) : exists k : Z, alphaPoints x = (5 * k)%Z.
Proof.
  unfold alphaPoints.
  destruct (geb x (ofZ 3)); [now exists 5%Z|].
  destruct (geb x (ofZ 2)); [now exists 4%Z|].
  destruct (geb x (ofZ 1)); [now exists 3%Z|].
  destruct (geb x (ofZ 0)); [now exists 2%Z | now exists 1%Z].
Qed.

Lemma sharpePoints_mult5 (x : number) : exists k : Z, sharpePoints x = (5 * k)%Z.
Proof.
  unfold sharpePoints.
  destruct (geb x (ofZ 2)); [now exists 5%Z|].
  destruct (geb x (Fin (3 # 2))); [now exists 4%Z|].
  destruct (geb x (ofZ 1)); [now exists 3%Z | now exists 2%Z].
Qed.

Lemma cagrPoints_mult5 (x : number) : exists k : Z, cagrPoints x = (5 * k)%Z.
Proof.
  unfold cagrPoints.
  destruct (geb x (ofZ 18)); [now exists 5%Z|].
  destruct (geb x (ofZ 15)); [now exists 4%Z|].
  destruct (geb x (ofZ 12)); [now exists 3%Z | now exists 2%Z].
Qed.

Lemma getScoreCategory_Poor (s : Z) :
  Utils.getScoreCategory (ofZ s) = "Poor"%string <-> (s < 40)%Z.
Proof.
  unfold Utils.getScoreCategory, geb, ofZ.
  destruct (leb (Fin (inject_Z 80)) (Fin (inject_Z s))) eqn:E1;
    [apply leb_fin_true in E1 | apply leb_fin_false in E1];
    [rewrite <- Zle_Qle in E1 | rewrite <- Zlt_Qlt in E1].
  { split; intro H; [discriminate H | lia]. }
  destruct (leb (Fin (inject_Z 60)) (Fin (inject_Z s))) eqn:E2;
    [apply leb_fin_true in E2 | apply leb_fin_false in E2];
    [rewrite <- Zle_Qle in E2 | rewrite <- Zlt_Qlt in E2].
  { split; intro H; [discriminate H | lia]. }
  destruct (leb (Fin (inject_Z 40)) (Fin (inject_Z s))) eqn:E3;
    [apply leb_fin_true in E3 | apply leb_fin_false in E3];
    [rewrite <- Zle_Qle in E3 | rewrite <- Zlt_Qlt in E3].
  { split; intro H; [discriminate H | lia]. }
  split; intro H; [lia | reflexivity].
Qed.

(** A scored fund is rated "Poor" exactly when it misses the lowest
    threshold of every criterion -- expense ratio not <= 1.5, alpha not
    >= 0, Sharpe ratio not >= 1 and CAGR not >= 12 (a [NaN] metric
    misses every threshold) -- and then its score is 35. *)
Theorem scoreFund_poor_iff (metrics : Utils.Metrics.t) :
  (Utils.getScoreCategory (Utils.scoreFund metrics) = "Poor"%string
   <-> leb (Utils.Metrics.er metrics) (Fin (3 # 2)) = false
       /\ geb (Utils.Metrics.alpha metrics) (ofZ 0) = false
       /\ geb (Utils.Metrics.sharpe metrics) (ofZ 1) = false
       /\ geb (Utils.Metrics.cagr metrics) (ofZ 12) = false)
  /\ (Utils.getScoreCategory (Utils.scoreFund metrics) = "Poor"%string
      <-> Utils.scoreFund metrics = ofZ 35).
Proof.
  rewrite scoreFund_points.
  destruct (erPoints_range (Utils.Metrics.er metrics)) as [R1 I1].
  destruct (alphaPoints_range (Utils.Metrics.alpha metrics)) as [R2 I2].
  destruct (sharpePoints_range (Utils.Metrics.sharpe metrics)) as [R3 I3].
  destruct (cagrPoints_range (Utils.Metrics.cagr metrics)) as [R4 I4].
  destruct (erPoints_mult5 (Utils.Metrics.er metrics)) as [a Ea].
  destruct (alphaPoints_mult5 (Utils.Metrics.alpha metrics)) as [b Eb].
  destruct (sharpePoints_mult5 (Utils.Metrics.sharpe metrics)) as [c Ec].
  destruct (cagrPoints_mult5 (Utils.Metrics.cagr metrics)) as [d Ed].
  rewrite getScoreCategory_Poor. split.
  - rewrite <- I1, <- I2, <- I3, <- I4. lia.
  - split; intro H.
    + f_equal. lia.
    + unfold ofZ in H. injection H as H. lia.
Qed.

(* ================================================================== *)
(** ** [Utils.daysBetween] and [Utils.calculatePortfolioValue] *)
(* ================================================================== *)

Lemma daysBetween_fin (a b : Q) :
  Utils.daysBetween (Fin a) (Fin b)
  = ofZ (roundHalfUp (Qabs ((a - b) / 86400000))).
Proof. reflexivity. Qed.

(** The number of days between two dates does not depend on their order,
    for all time values, [NaN] (an invalid date) included. *)
Theorem daysBetween_symmetric (date1 date2 : number) :
  Utils.daysBetween date1 date2 = Utils.daysBetween date2 date1.
Proof.
  destruct date1 as [a| | |], date2 as [b| | |]; try reflexivity.
  rewrite !daysBetween_fin. f_equal. unfold roundHalfUp.
  apply Qfloor_comp.
  assert (E : (b - a) / 86400000 == - ((a - b) / 86400000)) by field.
  rewrite E, Qabs_opp. reflexivity.
Qed.

(** For two valid dates the result is a whole number of days that is not
    negative, and it is 0 exactly when the dates are less than twelve
    hours (43,200,000 ms) apart. *)
Theorem daysBetween_whole (a b : Q) :
  exists days : Z,
    Utils.daysBetween (Fin a) (Fin b) = ofZ days
    /\ (0 <= days)%Z
    /\ (days = 0%Z <-> Qabs (a - b) < 43200000).
Proof.
  rewrite daysBetween_fin. eexists. split; [reflexivity|].
  set (x := Qabs ((a - b) / 86400000)).
  assert (Ex : x == Qabs (a - b) / 86400000).
  { unfold x, Qdiv. rewrite Qabs_Qmult. reflexivity. }
  assert (H0 : 0 <= Qabs (a - b)) by apply Qabs_nonneg.
  destruct (roundHalfUp_bounds x) as [B1 B2].
  assert (Ed : Qabs (a - b) == x * 86400000) by (rewrite Ex; field).
  split.
  - change 0%Z with (roundHalfUp 0). apply roundHalfUp_mono. rewrite Ex.
    apply Qle_shift_div_l; lra.
  - split; intro H.
    + rewrite H in B2. change (inject_Z 0) with 0 in B2. lra.
    + apply roundHalfUp_unique; change (inject_Z 0) with 0; lra.
Qed.

Lemma portfolio_fold_NaN (holdings : list Utils.Holding.t) :
  fold_left
    (fun sum holding =>
       add sum (mul (Utils.Holding.quantity holding) (Utils.Holding.price holding)))
    holdings NaN = NaN.
Proof.
  induction holdings as [|h l IH]; [reflexivity|exact IH].
Qed.

(** One unusable holding spoils the total: if the quantity or the price
    of any holding is [NaN], the portfolio value is [NaN]. *)
Theorem portfolio_value_NaN (holdings : list Utils.Holding.t) (h : Utils.Holding.t) :
  In h holdings ->
  Utils.Holding.quantity h = NaN \/ Utils.Holding.price h = NaN ->
  Utils.calculatePortfolioValue holdings = NaN.
Proof.
  intros Hin Hnan. apply in_split in Hin. destruct Hin as [l1 [l2 ->]].
  unfold Utils.calculatePortfolioValue. rewrite fold_left_app. cbn [fold_left].
  assert (E : mul (Utils.Holding.quantity h) (Utils.Holding.price h) = NaN).
  { destruct Hnan as [-> | ->]; [reflexivity | apply mul_NaN_r]. }
  rewrite E, add_NaN_r. apply portfolio_fold_NaN.
Qed.

Lemma portfolio_value_NaN_witness :
  In (Utils.Holding.mk (ofZ 10) NaN)
     [Utils.Holding.mk (ofZ 5) (ofZ 100); Utils.Holding.mk (ofZ 10) NaN]
  /\ (Utils.Holding.quantity (Utils.Holding.mk (ofZ 10) NaN) = NaN
      \/ Utils.Holding.price (Utils.Holding.mk (ofZ 10) NaN) = NaN)
  /\ Utils.calculatePortfolioValue
       [Utils.Holding.mk (ofZ 5) (ofZ 100); Utils.Holding.mk (ofZ 10) NaN] = NaN.
Proof.
  split; [right; left; reflexivity|]. split; [right; reflexivity|].
  apply (@portfolio_value_NaN _ (Utils.Holding.mk (ofZ 10) NaN));
    [right; left; reflexivity | right; reflexivity].
Defined.

(** With finite quantities and prices that are not negative the portfolio
    value is not negative and not [NaN] (0 for no holdings), and it is at
    least the value of each single holding. *)
Theorem portfolio_value_nonnegative (holdings : list Utils.Holding.t) :
  Forall (fun h => exists q p : Q,
            Utils.Holding.quantity h = Fin q /\ Utils.Holding.price h = Fin p
            /\ 0 <= q /\ 0 <= p) holdings ->
  leb (ofZ 0) (Utils.calculatePortfolioValue holdings) = true
  /\ forall h, In h holdings ->
       leb (mul (Utils.Holding.quantity h) (Utils.Holding.price h))
           (Utils.calculatePortfolioValue holdings) = true.
Proof.
  unfold Utils.calculatePortfolioValue, ofZ.
  assert (G : forall (l : list Utils.Holding.t) (s : Q),
             0 <= s ->
             Forall (fun h => exists q p : Q,
               Utils.Holding.quantity h = Fin q /\ Utils.Holding.price h = Fin p
               /\ 0 <= q /\ 0 <= p) l ->
             exists v : Q,
               fold_left
                 (fun sum holding =>
                    add sum (mul (Utils.Holding.quantity holding)
                                 (Utils.Holding.price holding))) l (Fin s) = Fin v
               /\ s <= v
               /\ forall h, In h l ->
                    leb (mul (Utils.Holding.quantity h) (Utils.Holding.price h))
                        (Fin v) = true).
  { induction l as [|h l IH]; intros s Hs HF.
    - exists s. split; [reflexivity|]. split; [lra|]. intros h [].
    - inversion HF as [|? ? [q [p [Eq [Ep [Hq Hp]]]]] HF']; subst.
      cbn [fold_left]. rewrite Eq, Ep. cbn [mul add].
      destruct (IH (s + q * p) ltac:(nra) HF') as [v [Ev [Hv Hin]]].
      exists v. split; [exact Ev|]. split; [nra|].
      intros h' [<-|Hh'].
      + rewrite Eq, Ep. cbn [mul]. apply leb_fin. nra.
      + apply Hin. exact Hh'. }
  intro HF. destruct (G holdings (inject_Z 0) ltac:(change (inject_Z 0) with 0; lra) HF)
    as [v [Ev [Hv Hin]]].
  rewrite Ev. split; [apply leb_fin; exact Hv | exact Hin].
Qed.

Lemma portfolio_value_nonnegative_witness :
  Forall (fun h => exists q p : Q,
            Utils.Holding.quantity h = Fin q /\ Utils.Holding.price h = Fin p
            /\ 0 <= q /\ 0 <= p)
         [Utils.Holding.mk (Fin 5) (Fin 100)]
  /\ leb (ofZ 0) (Utils.calculatePortfolioValue [Utils.Holding.mk (Fin 5) (Fin 100)])
     = true.
Proof.
  assert (F : Forall (fun h => exists q p : Q,
            Utils.Holding.quantity h = Fin q /\ Utils.Holding.price h = Fin p
            /\ 0 <= q /\ 0 <= p)
         [Utils.Holding.mk (Fin 5) (Fin 100)]).
  { constructor; [|constructor]. exists 5, 100.
    split; [reflexivity|]. split; [reflexivity|].
    split; intro H; discriminate H. }
  split; [exact F|].
  destruct (@portfolio_value_nonnegative _ F) as [H _]. exact H.
Defined.

(* ================================================================== *)
(** ** [AuthManager]: accounts and sessions *)
(* ================================================================== *)

Section AuthFacts.

Variables (payload fund setting : Type).

Import AuthManager.

Implicit Types (this : AuthManager.t payload fund setting) (users : list User.t).

#[local] Open Scope bool_scope.
#[local] Open Scope nat_scope.

Lemma isEmpty_false (s : string) : isEmpty s = false <-> s <> EmptyString.
Proof. unfold isEmpty. apply String.eqb_neq. Qed.

Lemma existsb_email_false users (email : string) :
  existsb (fun u => String.eqb (User.email u) email) users = false
  <-> ~ In email (map User.email users).
Proof.
  induction users as [|u l IH]; cbn [existsb map In].
  - tauto.
  - rewrite Bool.orb_false_iff, IH, String.eqb_neq. tauto.
Qed.

Lemma find_none_of_email users (email password : string) :
  ~ In email (map User.email users) ->
  find (fun u => String.eqb (User.email u) email
                 && String.eqb (User.password u) password) users = None.
Proof.
  induction users as [|u l IH]; cbn [find map In]; intro H; [reflexivity|].
  destruct (String.eqb_spec (User.email u) email) as [E|E]; [tauto|].
  cbn [andb]. apply IH. tauto.
Qed.

Lemma find_app_new users (u : User.t) (pred : User.t -> bool) :
  find pred users = None -> find pred (users ++ [u]) = if pred u then Some u else None.
Proof.
  induction users as [|x l IH]; cbn [find app]; [reflexivity|].
  destruct (pred x); [discriminate|exact IH].
Qed.

Ltac refused :=
  cbn [fst snd]; repeat split; intros; try reflexivity; try tauto;
  try discriminate;
  try (match goal with
       | H : exists _, _ |- _ => destruct H as [? H]; discriminate H
       end);
  try lia.

Lemma signup_cases (name email password now : string) this :
  let result := signup name email password now this in
  ((exists user, fst result = Success user)
   <-> name <> EmptyString /\ email <> EmptyString /\ password <> EmptyString
       /\ ~ In email (registeredEmails this) /\ 6 <= String.length password)
  /\ (forall user, fst result = Success user ->
        user = PublicUser.mk name email "user"%string
        /\ getAllUsers (snd result)
           = getAllUsers this ++ [User.mk name email password now "user"%string])
  /\ (forall error, fst result = Failure error -> snd result = this)
  /\ currentUser (snd result) = currentUser this.
Proof.
  cbn zeta. unfold signup, registeredEmails.
  destruct (isEmpty name) eqn:En; cbn [orb].
  { apply String.eqb_eq in En. refused. }
  destruct (isEmpty email) eqn:Ee; cbn [orb].
  { apply String.eqb_eq in Ee. refused. }
  destruct (isEmpty password) eqn:Ep.
  { apply String.eqb_eq in Ep. refused. }
  apply isEmpty_false in En, Ee, Ep.
  destruct (existsb _ (getAllUsers this)) eqn:Ex.
  { assert (In email (map User.email (getAllUsers this))).
    { destruct (in_dec string_dec email (map User.email (getAllUsers this)))
        as [I|I]; [exact I|]. apply existsb_email_false in I. congruence. }
    refused. }
  apply existsb_email_false in Ex.
  destruct (Nat.ltb_spec (String.length password) 6) as [L|L].
  { refused. }
  cbn [fst snd]. repeat split; intros; try tauto; try discriminate;
    try congruence.
  eexists. reflexivity.
Qed.

Lemma login_after_signup (name email password now now' : string) this
    (user : PublicUser.t) :
  fst (signup name email password now this) = Success user ->
  let this' := snd (signup name email password now this) in
  fst (login email password now' this')
  = Success (SessionUser.mk name email "user"%string now')
  /\ currentUser (snd (login email password now' this'))
     = Some (SessionUser.mk name email "user"%string now').
Proof.
  intros H this'.
  destruct (signup_cases name email password now this) as [S [A _]].
  cbn zeta in S, A.
  destruct (proj1 S (ex_intro _ user H)) as [Hn [He [Hp [Hnew Hlen]]]].
  destruct (A user H) as [_ EU]. fold this' in EU.
  unfold login. apply isEmpty_false in He, Hp. rewrite He, Hp. cbn [orb].
  rewrite EU, find_app_new by (apply find_none_of_email; exact Hnew).
  cbn [User.email User.password User.name]. rewrite !String.eqb_refl. cbn [andb].
  split; reflexivity.
Qed.

Lemma signup_keeps_other_items (name email password now : string) this :
  let this' := snd (signup name email password now this) in
  sessionItem (storage this') = sessionItem (storage this)
  /\ settingsItem (storage this') = settingsItem (storage this)
  /\ portfolioItem (storage this') = portfolioItem (storage this)
  /\ fundsItem (storage this') = fundsItem (storage this).
Proof.
  cbn zeta. unfold signup.
  destruct (isEmpty name || isEmpty email || isEmpty password); [now repeat split|].
  destruct (existsb _ _); [now repeat split|].
  destruct (String.length password <? 6); now repeat split.
Qed.

(** Whether [signup] succeeds, and what it leaves alone: it succeeds
    exactly when the three fields are not empty, the email is not
    registered yet and the password has 6 characters or more; then the
    new user is appended to the stored users, also when the stored entry
    was missing or unreadable; a refused signup changes nothing; and
    [signup] never logs anyone in or out, nor touches the stored session,
    the settings or anybody's saved portfolio and funds. *)
Theorem signup_outcome (name email password now : string) this :
  let result := signup name email password now this in
  ((exists user, fst result = Success user)
   <-> name <> EmptyString /\ email <> EmptyString /\ password <> EmptyString
       /\ ~ In email (registeredEmails this) /\ 6 <= String.length password)
  /\ (forall user, fst result = Success user ->
        user = PublicUser.mk name email "user"%string
        /\ getAllUsers (snd result)
           = (getAllUsers this ++ [User.mk name email password now "user"%string])%list)
  /\ (forall error, fst result = Failure error -> snd result = this)
  /\ currentUser (snd result) = currentUser this
  /\ sessionItem (storage (snd result)) = sessionItem (storage this)
  /\ settingsItem (storage (snd result)) = settingsItem (storage this)
  /\ portfolioItem (storage (snd result)) = portfolioItem (storage this)
  /\ fundsItem (storage (snd result)) = fundsItem (storage this).
Proof.
  cbn zeta.
  destruct (signup_cases name email password now this) as [S [A [R C]]].
  destruct (signup_keeps_other_items name email password now this) as [K1 [K2 [K3 K4]]].
  cbn zeta in *.
  split; [exact S|]. split; [exact A|]. split; [exact R|]. split; [exact C|].
  split; [exact K1|]. split; [exact K2|]. split; [exact K3 | exact K4].
Qed.

(** A new account can log in at once: when the three fields are not
    empty, the email is not registered and the password has 6 characters
    or more, [login] with the same email and password on the state
    [signup] leaves succeeds, and its session carries the name and the
    email given at signup. *)
Theorem signup_then_login (name email password now now' : string) this :
  name <> EmptyString -> email <> EmptyString ->
  ~ In email (registeredEmails this) -> 6 <= String.length password ->
  let this' := snd (signup name email password now this) in
  fst (signup name email password now this)
  = Success (PublicUser.mk name email "user"%string)
  /\ fst (login email password now' this')
     = Success (SessionUser.mk name email "user"%string now')
  /\ currentUser (snd (login email password now' this'))
     = Some (SessionUser.mk name email "user"%string now').
Proof.
  intros Hn He Hnew Hlen this'.
  assert (Hp : password <> EmptyString).
  { intro E. rewrite E in Hlen. cbn in Hlen. lia. }
  destruct (signup_cases name email password now this) as [S [A _]].
  cbn zeta in S, A.
  destruct (proj2 S (conj Hn (conj He (conj Hp (conj Hnew Hlen))))) as [user Eu].
  destruct (A user Eu) as [-> _].
  split; [exact Eu|]. exact (login_after_signup _ _ _ _ now' _ Eu).
Qed.

Lemma find_email_password_In users (email password : string) (u : User.t) :
  find (fun u => String.eqb (User.email u) email
                 && String.eqb (User.password u) password) users = Some u ->
  In u users /\ User.email u = email /\ User.password u = password.
Proof.
  intro H. apply find_some in H. destruct H as [I E].
  apply Bool.andb_true_iff in E. destruct E as [E1 E2].
  apply String.eqb_eq in E1, E2. auto.
Qed.

Lemma login_cases (email password now : string) this :
  let result := login email password now this in
  ((exists session, fst result = Success session)
   <-> email <> EmptyString /\ password <> EmptyString
       /\ exists u, In u (getAllUsers this)
                    /\ User.email u = email /\ User.password u = password)
  /\ (forall error, fst result = Failure error -> snd result = this)
  /\ (forall session, fst result = Success session ->
        SessionUser.email session = email
        /\ SessionUser.loginTime session = now
        /\ currentUser (snd result) = Some session
        /\ isLoggedIn (snd result) = true
        /\ constructor (storage (snd result)) = snd result
        /\ getAllUsers (snd result) = getAllUsers this).
Proof.
  cbn zeta. unfold login.
  destruct (isEmpty email) eqn:Ee; cbn [orb].
  { apply String.eqb_eq in Ee. refused. }
  destruct (isEmpty password) eqn:Ep.
  { apply String.eqb_eq in Ep. refused. }
  apply isEmpty_false in Ee, Ep.
  destruct (find _ (getAllUsers this)) as [u|] eqn:F.
  - destruct (find_email_password_In _ _ _ F) as [I [E1 E2]].
    cbn [fst snd]. split; [|split].
    + split; [intros _|intros _; eexists; reflexivity].
      split; [exact Ee|]. split; [exact Ep|]. exists u. auto.
    + intros error H. discriminate H.
    + intros session H. injection H as <-.
      cbn [SessionUser.email SessionUser.loginTime currentUser].
      repeat split; auto.
  - cbn [fst snd]. split; [|split].
    + split; [intros [s H]; discriminate H|].
      intros [_ [_ [u [I [E1 E2]]]]].
      pose proof (find_none _ _ F u I) as N. cbn beta in N.
      rewrite E1, E2, !String.eqb_refl in N. discriminate N.
    + intros; reflexivity.
    + intros s H. discriminate H.
Qed.

Lemma login_keeps_other_items (email password now : string) this :
  let this' := snd (login email password now this) in
  usersItem (storage this') = usersItem (storage this)
  /\ settingsItem (storage this') = settingsItem (storage this)
  /\ portfolioItem (storage this') = portfolioItem (storage this)
  /\ fundsItem (storage this') = fundsItem (storage this).
Proof.
  cbn zeta. unfold login.
  destruct (isEmpty email || isEmpty password); [now repeat split|].
  destruct (find _ _); now repeat split.
Qed.

(** Whether [login] succeeds, and what a session is: it succeeds exactly
    when email and password are not empty and some registered user has
    both; a refused login changes nothing; an accepted one makes that
    email the current user, stamps the session with the time of the call
    and stores it, so that an [AuthManager] constructed later on the same
    storage is in the same state; and [login] never touches the users,
    the settings or anybody's saved portfolio and funds. *)
Theorem login_outcome (email password now : string) this :
  let result := login email password now this in
  ((exists session, fst result = Success session)
   <-> email <> EmptyString /\ password <> EmptyString
       /\ exists u, In u (getAllUsers this)
                    /\ User.email u = email /\ User.password u = password)
  /\ (forall error, fst result = Failure error -> snd result = this)
  /\ (forall session, fst result = Success session ->
        SessionUser.email session = email
        /\ SessionUser.loginTime session = now
        /\ currentUser (snd result) = Some session
        /\ isLoggedIn (snd result) = true
        /\ constructor (storage (snd result)) = snd result)
  /\ usersItem (storage (snd result)) = usersItem (storage this)
  /\ settingsItem (storage (snd result)) = settingsItem (storage this)
  /\ portfolioItem (storage (snd result)) = portfolioItem (storage this)
  /\ fundsItem (storage (snd result)) = fundsItem (storage this).
Proof.
  cbn zeta.
  destruct (login_cases email password now this) as [S [R A]].
  destruct (login_keeps_other_items email password now this) as [K1 [K2 [K3 K4]]].
  cbn zeta in *.
  split; [exact S|]. split; [exact R|]. split.
  - intros session H. destruct (A session H) as [E [T [C [L [P _]]]]].
    repeat split; assumption.
  - split; [exact K1|]. split; [exact K2|]. split; [exact K3 | exact K4].
Qed.

(** *** The emails stay unique *)

Lemma map_email_updateAt users (i : nat) (name : string) :
  map User.email (updateAt i (withName name) users) = map User.email users.
Proof.
  revert i. induction users as [|u l IH]; intros [|i]; cbn [updateAt map];
    try reflexivity. now rewrite IH.
Qed.

Lemma map_email_updateFirst users (pred : User.t -> bool) (password : string) :
  map User.email (updateFirst pred (withPassword password) users)
  = map User.email users.
Proof.
  induction users as [|u l IH]; cbn [updateFirst map]; [reflexivity|].
  destruct (pred u); cbn [map]; [reflexivity | now rewrite IH].
Qed.

Lemma In_removeAt {A : Type} (l : list A) (i : nat) (x : A) :
  In x (removeAt i l) -> In x l.
Proof.
  revert i. induction l as [|y l IH]; intros [|i]; cbn [removeAt In]; auto.
  intros [H|H]; [now left | right; eapply IH; exact H].
Qed.

Lemma map_removeAt {A B : Type} (f : A -> B) (l : list A) (i : nat) :
  map f (removeAt i l) = removeAt i (map f l).
Proof.
  revert i. induction l as [|y l IH]; intros [|i]; cbn [removeAt map];
    try reflexivity. now rewrite IH.
Qed.

Lemma NoDup_removeAt {A : Type} (l : list A) (i : nat) :
  NoDup l -> NoDup (removeAt i l).
Proof.
  revert i. induction l as [|y l IH]; intros [|i] H; cbn [removeAt];
    try exact H; inversion H as [|? ? N D]; subst; [exact D|].
  constructor; [|apply IH; exact D].
  intro I. apply N. eapply In_removeAt. exact I.
Qed.

(** No operation registers an email twice: if the emails of the stored
    users are pairwise distinct, they still are after [signup], [login],
    [logout], [updateProfile], [changePassword] and [deleteAccount],
    whatever the arguments and whether the call succeeds or not. *)
Theorem emails_stay_unique this :
  NoDup (registeredEmails this) ->
  (forall name email password now,
     NoDup (registeredEmails (snd (signup name email password now this))))
  /\ (forall email password now,
        NoDup (registeredEmails (snd (login email password now this))))
  /\ NoDup (registeredEmails (snd (logout this)))
  /\ (forall name, NoDup (registeredEmails (snd (updateProfile name this))))
  /\ (forall currentPassword newPassword,
        NoDup (registeredEmails (snd (changePassword currentPassword newPassword this))))
  /\ (forall password, NoDup (registeredEmails (snd (deleteAccount password this)))).
Proof.
  intro H. repeat split.
  - intros name email password now.
    destruct (signup_cases name email password now this) as [S [A [R _]]].
    cbn zeta in S, A, R.
    destruct (fst (signup name email password now this)) as [user|error] eqn:E.
    + destruct (A user eq_refl) as [_ EU].
      destruct (proj1 S (ex_intro _ user eq_refl)) as [_ [_ [_ [Hnew _]]]].
      unfold registeredEmails in *. rewrite EU, map_app. cbn [map User.email].
      apply NoDup_app; [exact H | repeat constructor; intros [] | ].
      intros e I [<-|[]]. exact (Hnew I).
    + now rewrite (R error eq_refl).
  - intros email password now.
    destruct (login_cases email password now this) as [_ [R A]].
    cbn zeta in R, A.
    destruct (fst (login email password now this)) as [session|error] eqn:E.
    + destruct (A session eq_refl) as [_ [_ [_ [_ [_ EU]]]]].
      unfold registeredEmails in *. now rewrite EU.
    + now rewrite (R error eq_refl).
  - exact H.
  - intro name. unfold updateProfile.
    destruct (currentUser this) as [current|]; [|exact H].
    destruct (findIndex _ (getAllUsers this)) as [[i u]|]; [|exact H].
    unfold registeredEmails, getAllUsers at 1. cbn [snd storage usersItem setSessionItem setUsersItem].
    rewrite map_email_updateAt. exact H.
  - intros currentPassword newPassword. unfold changePassword.
    destruct (currentUser this) as [current|]; [|exact H].
    destruct (find _ (getAllUsers this)) as [u|]; [|exact H].
    destruct (negb _); [exact H|].
    destruct (String.length newPassword <? 6); [exact H|].
    unfold registeredEmails, getAllUsers at 1. cbn [snd storage usersItem setUsersItem].
    rewrite map_email_updateFirst. exact H.
  - intro password. unfold deleteAccount.
    destruct (currentUser this) as [current|]; [|exact H].
    destruct (findIndex _ (getAllUsers this)) as [[i u]|]; [|exact H].
    destruct (negb _); [exact H|].
    unfold registeredEmails, getAllUsers at 1. cbn [snd storage usersItem setSessionItem setUsersItem].
    rewrite map_removeAt. apply NoDup_removeAt. exact H.
Qed.

(** *** Changing the password, deleting the account *)

Lemma findIndex_spec {A : Type} (pred : A -> bool) (l : list A) (i : nat) (x : A) :
  findIndex pred l = Some (i, x) ->
  nth_error l i = Some x /\ pred x = true /\ In x l.
Proof.
  revert i. induction l as [|y l IH]; intros i H; cbn [findIndex] in H;
    [discriminate H|].
  destruct (pred y) eqn:P.
  - injection H as <- <-. cbn. auto.
  - destruct (findIndex pred l) as [[j z]|]; [|discriminate H].
    injection H as <- <-. destruct (IH j eq_refl) as [N [Q I]].
    cbn. auto.
Qed.

Lemma findIndex_none {A : Type} (pred : A -> bool) (l : list A) (x : A) :
  findIndex pred l = None -> In x l -> pred x = false.
Proof.
  induction l as [|y l IH]; cbn [findIndex In]; [tauto|].
  destruct (pred y) eqn:P; [discriminate|].
  destruct (findIndex pred l) as [[j z]|]; [discriminate|].
  intros _ [<-|I]; [exact P | now apply IH].
Qed.

Lemma In_updateFirst users (pred : User.t -> bool) (f : User.t -> User.t)
    (x : User.t) :
  find pred users = Some x -> In (f x) (updateFirst pred f users).
Proof.
  induction users as [|y l IH]; cbn [find updateFirst]; [discriminate|].
  destruct (pred y).
  - intro H. injection H as <-. now left.
  - intro H. right. now apply IH.
Qed.

Lemma updateFirst_keeps_others users (email password : string) (u : User.t) :
  In u users -> User.email u <> email ->
  In u (updateFirst (fun x => String.eqb (User.email x) email)
          (withPassword password) users).
Proof.
  induction users as [|y l IH]; cbn [In updateFirst]; [tauto|].
  intros [<-|I] N.
  - destruct (String.eqb_spec (User.email y) email); [contradiction | now left].
  - destruct (String.eqb (User.email y) email); right; [exact I | now apply IH].
Qed.

Lemma updateFirst_password users (email password : string) (u : User.t) :
  NoDup (map User.email users) ->
  In u (updateFirst (fun x => String.eqb (User.email x) email)
          (withPassword password) users) ->
  User.email u = email -> User.password u = password.
Proof.
  induction users as [|y l IH]; cbn [map updateFirst In]; [tauto|].
  intros D I E. inversion D as [|? ? N D']; subst.
  destruct (String.eqb_spec (User.email y) (User.email u)) as [Ey|Ey].
  - destruct I as [<-|I]; [reflexivity|].
    exfalso. apply N. rewrite Ey. now apply in_map.
  - destruct I as [<-|I]; [contradiction|]. now apply IH.
Qed.

(** After a successful [changePassword], with unique emails and a
    session whose email is not empty: [login] with the new password
    succeeds, [login] with the old password fails when the two differ,
    the caller stays logged in, and every other user's entry is still
    there. *)
Theorem changePassword_then_login (currentPassword newPassword now : string)
    this (current : SessionUser.t) (message : string) :
  NoDup (registeredEmails this) ->
  currentUser this = Some current ->
  SessionUser.email current <> EmptyString ->
  fst (changePassword currentPassword newPassword this) = Success message ->
  let this' := snd (changePassword currentPassword newPassword this) in
  (exists session,
     fst (login (SessionUser.email current) newPassword now this') = Success session)
  /\ (currentPassword <> newPassword ->
      exists error,
        fst (login (SessionUser.email current) currentPassword now this')
        = Failure error)
  /\ currentUser this' = Some current
  /\ (forall u, In u (getAllUsers this) ->
        User.email u <> SessionUser.email current -> In u (getAllUsers this')).
Proof.
  intros D C Ne H this'. unfold this' in *. clear this'.
  unfold changePassword in *. rewrite C in *.
  destruct (find _ (getAllUsers this)) as [user|] eqn:F; [|discriminate H].
  destruct (negb _) eqn:P; [discriminate H|].
  destruct (Nat.ltb_spec (String.length newPassword) 6) as [L|L]; [discriminate H|].
  cbn [snd fst] in *.
  set (this' := mk _ _).
  assert (EU : getAllUsers this'
               = updateFirst (fun x => String.eqb (User.email x) (SessionUser.email current))
                   (withPassword newPassword) (getAllUsers this)) by reflexivity.
  pose proof (find_some _ _ F) as [Iu Eu]. apply String.eqb_eq in Eu.
  assert (Nn : newPassword <> EmptyString).
  { intro E. rewrite E in L. cbn in L. lia. }
  split; [|split; [|split]].
  - apply (proj1 (login_cases _ newPassword now this')).
    split; [exact Ne|]. split; [exact Nn|].
    exists (withPassword newPassword user). rewrite EU.
    split; [now apply In_updateFirst|]. split; [exact Eu | reflexivity].
  - intro Hd.
    destruct (fst (login (SessionUser.email current) currentPassword now this'))
      as [session|error] eqn:E; [|now exists error].
    exfalso.
    destruct (proj1 (proj1 (login_cases _ currentPassword now this'))
                (ex_intro _ session E)) as [_ [_ [u [I [E1 E2]]]]].
    rewrite EU in I. apply Hd. rewrite <- E2.
    eapply updateFirst_password; [exact D | exact I | exact E1].
  - reflexivity.
  - intros u I N. rewrite EU. now apply updateFirst_keeps_others.
Qed.

Lemma removeAt_email_gone users (i : nat) (x : User.t) :
  NoDup (map User.email users) -> nth_error users i = Some x ->
  ~ In (User.email x) (map User.email (removeAt i users)).
Proof.
  revert i. induction users as [|y l IH]; intros [|i] D N; cbn in N;
    try discriminate N; inversion D as [|? ? Ny D']; subst; cbn [removeAt map].
  - injection N as <-. exact Ny.
  - intros [E|I].
    + apply Ny. rewrite E. apply in_map. eapply nth_error_In. exact N.
    + exact (IH i D' N I).
Qed.

Lemma removeAt_keeps_others users (i : nat) (x u : User.t) :
  nth_error users i = Some x -> In u users -> User.email u <> User.email x ->
  In u (removeAt i users).
Proof.
  revert i. induction users as [|y l IH]; intros [|i] N I E; cbn in N;
    try discriminate N; cbn [removeAt].
  - injection N as <-. destruct I as [<-|I]; [contradiction | exact I].
  - destruct I as [<-|I]; [now left | right; now apply (IH i)].
Qed.

Lemma deleteAccount_cases (password : string) this
    (current : SessionUser.t) (message : string) :
  NoDup (registeredEmails this) ->
  currentUser this = Some current ->
  fst (deleteAccount password this) = Success message ->
  let this' := snd (deleteAccount password this) in
  ~ In (SessionUser.email current) (registeredEmails this')
  /\ (forall password' now, exists error,
        fst (login (SessionUser.email current) password' now this') = Failure error)
  /\ isLoggedIn this' = false
  /\ constructor (storage this') = this'
  /\ (forall u, In u (getAllUsers this) ->
        User.email u <> SessionUser.email current -> In u (getAllUsers this'))
  /\ (forall email,
        portfolioItem (storage this') email = portfolioItem (storage this) email
        /\ fundsItem (storage this') email = fundsItem (storage this) email).
Proof.
  intros D C H this'. unfold this' in *. clear this'.
  unfold deleteAccount in *. rewrite C in *.
  destruct (findIndex _ (getAllUsers this)) as [[i user]|] eqn:F; [|discriminate H].
  destruct (negb _) eqn:P; [discriminate H|].
  cbn [snd fst] in *. set (this' := mk _ _).
  assert (EU : getAllUsers this' = removeAt i (getAllUsers this)) by reflexivity.
  destruct (findIndex_spec _ _ F) as [N [Q I]]. apply String.eqb_eq in Q.
  assert (G : ~ In (SessionUser.email current) (registeredEmails this')).
  { unfold registeredEmails. rewrite EU, <- Q. now apply removeAt_email_gone. }
  split; [exact G|]. split; [|split; [|split; [|split]]].
  - intros password' now.
    destruct (fst (login (SessionUser.email current) password' now this'))
      as [session|error] eqn:E; [|now exists error].
    exfalso.
    destruct (proj1 (proj1 (login_cases _ password' now this'))
                (ex_intro _ session E)) as [_ [_ [u [Iu [E1 _]]]]].
    apply G. unfold registeredEmails. rewrite <- E1. now apply in_map.
  - reflexivity.
  - reflexivity.
  - intros u Iu Nu. rewrite EU.
    apply removeAt_keeps_others with (x := user); [exact N | exact Iu | now rewrite Q].
  - intro email. split; reflexivity.
Qed.

Lemma length_removeAt {A : Type} (l : list A) (i : nat) (x : A) :
  nth_error l i = Some x -> S (List.length (removeAt i l)) = List.length l.
Proof.
  revert i. induction l as [|y l IH]; intros [|i] N; cbn in N;
    try discriminate N; cbn [removeAt List.length]; [reflexivity|].
  f_equal. now apply IH.
Qed.

(** After a successful [deleteAccount], with unique emails: exactly one
    user entry is gone, the email of the session is no longer registered
    and no password logs it in, the caller is logged out and stays so
    after a reload, every other user's entry is still there -- and the
    portfolio and the funds saved under any email, the deleted one
    included, are still in the storage. *)
Theorem deleteAccount_removes_user (password : string) this
    (current : SessionUser.t) (message : string) :
  NoDup (registeredEmails this) ->
  currentUser this = Some current ->
  fst (deleteAccount password this) = Success message ->
  let this' := snd (deleteAccount password this) in
  S (List.length (getAllUsers this')) = List.length (getAllUsers this)
  /\ ~ In (SessionUser.email current) (registeredEmails this')
  /\ (forall password' now, exists error,
        fst (login (SessionUser.email current) password' now this') = Failure error)
  /\ isLoggedIn this' = false
  /\ constructor (storage this') = this'
  /\ (forall u, In u (getAllUsers this) ->
        User.email u <> SessionUser.email current -> In u (getAllUsers this'))
  /\ (forall email,
        portfolioItem (storage this') email = portfolioItem (storage this) email
        /\ fundsItem (storage this') email = fundsItem (storage this) email).
Proof.
  intros D C H this'.
  pose proof (deleteAccount_cases password this D C H) as K. cbn zeta in K.
  fold this' in K. split; [|exact K].
  unfold this', deleteAccount in *. rewrite C in *.
  destruct (findIndex _ (getAllUsers this)) as [[i user]|] eqn:F; [|discriminate H].
  destruct (negb _); [discriminate H|].
  destruct (findIndex_spec _ _ F) as [N _].
  cbn [snd]. unfold getAllUsers at 1.
  cbn [storage usersItem setSessionItem setUsersItem].
  now apply length_removeAt with (x := user).
Qed.

(** What [deleteAccount] leaves behind is inherited: when, after a
    successful [deleteAccount], somebody signs up with the same email and
    logs in, [getPortfolioData] and [getSavedFunds] return what the
    deleted account had saved. *)
Theorem deleted_account_data_is_inherited
    (password name password' now1 now2 : string) this
    (current : SessionUser.t) (message : string) :
  NoDup (registeredEmails this) ->
  currentUser this = Some current ->
  SessionUser.email current <> EmptyString ->
  fst (deleteAccount password this) = Success message ->
  name <> EmptyString -> 6 <= String.length password' ->
  let email := SessionUser.email current in
  let this1 := snd (deleteAccount password this) in
  let this2 := snd (signup name email password' now1 this1) in
  let this3 := snd (login email password' now2 this2) in
  isLoggedIn this3 = true
  /\ getPortfolioData this3 = getPortfolioData this
  /\ getSavedFunds this3 = getSavedFunds this.
Proof.
  intros D C Ne H Hn Hl email this1 this2 this3.
  destruct (deleteAccount_cases password this D C H)
    as [G [_ [_ [_ [_ K]]]]]. fold this1 in G, K.
  assert (Np : password' <> EmptyString).
  { intro E. rewrite E in Hl. cbn in Hl. lia. }
  destruct (signup_cases name email password' now1 this1) as [S [A _]].
  cbn zeta in S, A. fold this2 in A.
  destruct (proj2 S (conj Hn (conj Ne (conj Np (conj G Hl))))) as [user Eu].
  assert (P2 : forall e, portfolioItem (storage this2) e = portfolioItem (storage this) e
                         /\ fundsItem (storage this2) e = fundsItem (storage this) e).
  { intro e. rewrite <- (proj1 (K e)), <- (proj2 (K e)).
    unfold this2, signup. clear. 
    destruct (isEmpty name || isEmpty email || isEmpty password'); [now split|].
    destruct (existsb _ _); [now split|].
    destruct (String.length password' <? 6); now split. }
  destruct (login_after_signup name email password' now1 now2 this1 Eu) as [L1 L2].
  fold this2 in L1, L2. fold this3 in L2.
  assert (P3 : forall e, portfolioItem (storage this3) e = portfolioItem (storage this2) e
                         /\ fundsItem (storage this3) e = fundsItem (storage this2) e).
  { intro e. unfold this3, login. clear.
    destruct (isEmpty email || isEmpty password'); [now split|].
    destruct (find _ _); now split. }
  unfold isLoggedIn, getPortfolioData, getSavedFunds. rewrite L2, C.
  cbn [SessionUser.email]. fold email.
  rewrite (proj1 (P3 email)), (proj2 (P3 email)), (proj1 (P2 email)), (proj2 (P2 email)).
  repeat split; reflexivity.
Qed.

(** *** Saved data, profile and settings *)

Lemma login_keeps_saved_data (email password now : string) this :
  portfolioItem (storage (snd (login email password now this)))
  = portfolioItem (storage this)
  /\ fundsItem (storage (snd (login email password now this)))
     = fundsItem (storage this).
Proof.
  unfold login. destruct (isEmpty email || isEmpty password); [now split|].
  destruct (find _ _); now split.
Qed.

(** What a logged-in user saves is what the user gets back:
    [getPortfolioData] after [savePortfolioData(data)] returns [data],
    and [getSavedFunds] after [saveFundRecommendations(funds)] returns
    [funds]; neither call touches the other kind of data or the entries
    of any other email; and the portfolio is still returned after a
    [logout] followed by a successful [login] with the same email. *)
Theorem saved_data_roundtrip (portfolioData : payload) (funds : list fund)
    (now : string) this (current : SessionUser.t) :
  currentUser this = Some current ->
  let saved := snd (savePortfolioData portfolioData now this) in
  let saved' := snd (saveFundRecommendations funds now this) in
  (fst (savePortfolioData portfolioData now this) = Success tt
   /\ getPortfolioData saved = Some portfolioData
   /\ getSavedFunds saved = getSavedFunds this
   /\ forall email, email <> SessionUser.email current ->
        portfolioItem (storage saved) email = portfolioItem (storage this) email)
  /\ (fst (saveFundRecommendations funds now this) = Success tt
      /\ getSavedFunds saved' = funds
      /\ getPortfolioData saved' = getPortfolioData this
      /\ forall email, email <> SessionUser.email current ->
           fundsItem (storage saved') email = fundsItem (storage this) email)
  /\ (forall password now' session,
        let again :=
          login (SessionUser.email current) password now' (snd (logout saved)) in
        fst again = Success session ->
        getPortfolioData (snd again) = Some portfolioData).
Proof.
  intros C saved saved'. unfold saved, saved', savePortfolioData,
    saveFundRecommendations. rewrite C. cbn [fst snd].
  split; [|split].
  - unfold getPortfolioData, getSavedFunds.
    cbn [currentUser storage portfolioItem fundsItem setPortfolioItem].
    rewrite C, String.eqb_refl. repeat split.
    intros email N. apply (proj2 (String.eqb_neq _ _)) in N. now rewrite N.
  - unfold getPortfolioData, getSavedFunds.
    cbn [currentUser storage portfolioItem fundsItem setFundsItem].
    rewrite C, String.eqb_refl. repeat split.
    intros email N. apply (proj2 (String.eqb_neq _ _)) in N. now rewrite N.
  - intros password now' session.
    set (again := login (SessionUser.email current) password now' _).
    intro H.
    destruct (login_cases (SessionUser.email current) password now'
                (snd (logout (snd (savePortfolioData portfolioData now this)))))
      as [_ [_ A]].
    cbn zeta in A. unfold savePortfolioData in A. rewrite C in A. cbn [snd] in A.
    destruct (A session H) as [E [_ [CU _]]].
    fold again in CU. unfold getPortfolioData. rewrite CU, E.
    unfold again.
    rewrite (proj1 (login_keeps_saved_data _ _ _ _)).
    cbn [logout snd storage setSessionItem portfolioItem setPortfolioItem].
    now rewrite String.eqb_refl.
Qed.

Lemma find_updateAt_name users (email password name : string) (i : nat)
    (x u : User.t) :
  NoDup (map User.email users) ->
  findIndex (fun y => String.eqb (User.email y) email) users = Some (i, x) ->
  find (fun y => String.eqb (User.email y) email
                 && String.eqb (User.password y) password) users = Some u ->
  find (fun y => String.eqb (User.email y) email
                 && String.eqb (User.password y) password)
       (updateAt i (withName name) users) = Some (withName name u).
Proof.
  revert i. induction users as [|y l IH]; intros i D FI F;
    cbn [findIndex find] in *; [discriminate F|].
  inversion D as [|? ? N D']; subst.
  destruct (String.eqb_spec (User.email y) email) as [E|E].
  - injection FI as <- <-. cbn [updateAt find withName User.email User.password].
    rewrite E, String.eqb_refl. cbn [andb] in *.
    destruct (String.eqb (User.password y) password).
    + now injection F as <-.
    + exfalso. apply find_some in F. destruct F as [I P].
      apply Bool.andb_true_iff in P. destruct P as [P _]. apply String.eqb_eq in P.
      apply N. rewrite E, <- P. now apply in_map.
  - cbn [andb] in F.
    destruct (findIndex _ l) as [[j z]|]; [|discriminate FI].
    injection FI as <- <-. cbn [updateAt find].
    destruct (String.eqb_spec (User.email y) email); [contradiction|].
    cbn [andb]. now apply IH.
Qed.

Lemma updateAt_keeps_others users (i : nat) (name : string) (x u : User.t) :
  nth_error users i = Some x -> In u users -> User.email u <> User.email x ->
  In u (updateAt i (withName name) users).
Proof.
  revert i. induction users as [|y l IH]; intros [|i] N I E; cbn in N;
    try discriminate N; cbn [updateAt].
  - injection N as <-. destruct I as [<-|I]; [contradiction | now right].
  - destruct I as [<-|I]; [now left | right; now apply (IH i)].
Qed.

(** [updateProfile(name)] for a logged-in user, with unique emails.  If
    the email of the session is registered, the call succeeds: the
    session carries the new name and is stored, the registered emails
    are unchanged, every password that logged this email in before
    still does and the new session has the new name, and the other
    users' entries are untouched.  If the email is not registered the
    call fails with "User not found" and changes nothing. *)
Theorem updateProfile_renames (name : string) this (current : SessionUser.t) :
  NoDup (registeredEmails this) ->
  currentUser this = Some current ->
  let result := updateProfile name this in
  let renamed :=
    SessionUser.mk name (SessionUser.email current) (SessionUser.type current)
      (SessionUser.loginTime current) in
  (In (SessionUser.email current) (registeredEmails this) ->
   fst result = Success renamed
   /\ currentUser (snd result) = Some renamed
   /\ constructor (storage (snd result)) = snd result
   /\ registeredEmails (snd result) = registeredEmails this
   /\ (forall password now session,
         fst (login (SessionUser.email current) password now this) = Success session ->
         fst (login (SessionUser.email current) password now (snd result))
         = Success (SessionUser.mk name (SessionUser.email current) "user"%string now))
   /\ (forall u, In u (getAllUsers this) ->
         User.email u <> SessionUser.email current -> In u (getAllUsers (snd result))))
  /\ (~ In (SessionUser.email current) (registeredEmails this) ->
      fst result = Failure "User not found"%string /\ snd result = this).
Proof.
  intros D C result renamed. unfold result, updateProfile. rewrite C.
  destruct (findIndex _ (getAllUsers this)) as [[i x]|] eqn:F.
  - destruct (findIndex_spec _ _ F) as [N [Q I]]. apply String.eqb_eq in Q.
    split.
    + intros _. cbn [fst snd]. set (this' := mk _ _).
      assert (EU : getAllUsers this' = updateAt i (withName name) (getAllUsers this))
        by reflexivity.
      split; [reflexivity|]. split; [reflexivity|]. split; [reflexivity|].
      split; [unfold registeredEmails; now rewrite EU, map_email_updateAt|].
      split.
      * intros password now session H.
        unfold login in *.
        destruct (isEmpty (SessionUser.email current) || isEmpty password);
          [discriminate H|].
        destruct (find _ (getAllUsers this)) as [u|] eqn:Fu; [|discriminate H].
        rewrite EU, (@find_updateAt_name _ _ password name _ _ _ D F Fu).
        destruct (find_email_password_In _ _ _ Fu) as [_ [Eu _]].
        cbn [fst withName User.name User.email]. now rewrite Eu.
      * intros u Iu Nu. rewrite EU.
        apply updateAt_keeps_others with (x := x); [exact N | exact Iu | now rewrite Q].
    + intro H. exfalso. apply H. unfold registeredEmails. rewrite <- Q.
      now apply in_map.
  - split.
    + intro H. exfalso. unfold registeredEmails in H. apply in_map_iff in H.
      destruct H as [u [E I]]. pose proof (findIndex_none _ _ u F I) as P.
      cbn beta in P. rewrite E, String.eqb_refl in P. discriminate P.
    + intros _. split; reflexivity.
Qed.

Lemma getProp_setProp (obj : object setting) (key key' : string) (v : setting) :
  getProp (setProp obj key v) key'
  = if String.eqb key key' then Some v else getProp obj key'.
Proof.
  induction obj as [|[k w] rest IH]; cbn [setProp getProp].
  - reflexivity.
  - destruct (String.eqb_spec k key) as [->|N]; cbn [getProp].
    + destruct (String.eqb key key'); reflexivity.
    + destruct (String.eqb_spec k key') as [->|N'].
      * destruct (String.eqb_spec key key'); [congruence | reflexivity].
      * exact IH.
Qed.

Lemma getProp_spread (current settings : object setting) (key : string) :
  NoDup (map fst settings) ->
  getProp (spread current settings) key
  = match getProp settings key with
    | Some v => Some v
    | None => getProp current key
    end.
Proof.
  unfold spread. revert current.
  induction settings as [|[k v] rest IH]; intros current D; cbn [fold_left getProp];
    [reflexivity|].
  inversion D as [|? ? N D']; subst. rewrite IH by exact D'.
  cbn [fst snd]. rewrite getProp_setProp.
  destruct (String.eqb_spec k key) as [->|Nk]; [|reflexivity].
  destruct (getProp rest key) as [w|] eqn:G; [|reflexivity].
  exfalso. apply N. cbn [fst]. clear -G.
  induction rest as [|[k' w'] r IHr]; cbn [getProp map fst] in *; [discriminate G|].
  destruct (String.eqb_spec k' key) as [->|]; [now left | right; now apply IHr].
Qed.

(** [saveSettings] merges: for an object [settings] with distinct keys,
    the returned and stored settings give every key of [settings] its new
    value and every other key the value it had before, also when the
    stored entry was missing or unreadable, and a later [getSettings]
    returns the same object. *)
Theorem saveSettings_merges (settings : object setting) this :
  NoDup (map fst settings) ->
  let updated := fst (saveSettings settings this) in
  getSettings (snd (saveSettings settings this)) = updated
  /\ forall key,
       getProp updated key
       = match getProp settings key with
         | Some v => Some v
         | None => getProp (getSettings this) key
         end.
Proof.
  intros D updated. split; [reflexivity|].
  intro key. unfold updated, saveSettings. cbn [fst].
  now apply getProp_spread.
Qed.

End AuthFacts.

(** *** The theorems above on the sample states *)

Lemma NoDup_alice :
  NoDup (AuthManager.registeredEmails aliceLoggedIn).
Proof.
  change (NoDup ["alice@example.com"%string]).
  constructor; [intros [] | constructor].
Qed.

Lemma signup_then_login_witness :
  "Alice"%string <> EmptyString /\ "alice@example.com"%string <> EmptyString
  /\ ~ In "alice@example.com"%string (AuthManager.registeredEmails freshManager)
  /\ (6 <= String.length "secret1")%nat
  /\ fst (AuthManager.login "alice@example.com" "secret1"
            "2025-01-02T00:00:00.000Z" aliceSignedUp)
     = AuthManager.Success
         (AuthManager.SessionUser.mk "Alice" "alice@example.com" "user"
            "2025-01-02T00:00:00.000Z").
Proof.
  split; [intro H; discriminate H|]. split; [intro H; discriminate H|].
  split; [intros []|]. split; [cbn; lia|].
  destruct (@signup_then_login string string string "Alice" "alice@example.com"
              "secret1" "2025-01-01T00:00:00.000Z" "2025-01-02T00:00:00.000Z"
              freshManager ltac:(intro H; discriminate H)
              ltac:(intro H; discriminate H) ltac:(intros [])
              ltac:(cbn; lia)) as [_ [E _]].
  exact E.
Defined.

Lemma emails_stay_unique_witness :
  NoDup (AuthManager.registeredEmails aliceLoggedIn)
  /\ NoDup (AuthManager.registeredEmails
              (snd (AuthManager.signup "Bob" "bob@example.com" "hunter22"
                      "2025-01-03T00:00:00.000Z" aliceLoggedIn))).
Proof.
  split; [exact NoDup_alice|].
  apply (proj1 (@emails_stay_unique string string string aliceLoggedIn NoDup_alice)).
Defined.

Lemma changePassword_then_login_witness :
  NoDup (AuthManager.registeredEmails aliceLoggedIn)
  /\ AuthManager.currentUser aliceLoggedIn
     = Some (AuthManager.SessionUser.mk "Alice" "alice@example.com" "user"
               "2025-01-02T00:00:00.000Z")
  /\ "alice@example.com"%string <> EmptyString
  /\ fst (AuthManager.changePassword "secret1" "secret2" aliceLoggedIn)
     = AuthManager.Success "Password changed successfully"%string
  /\ exists session,
       fst (AuthManager.login "alice@example.com" "secret2"
              "2025-01-03T00:00:00.000Z"
              (snd (AuthManager.changePassword "secret1" "secret2" aliceLoggedIn)))
       = AuthManager.Success session.
Proof.
  split; [exact NoDup_alice|]. split; [reflexivity|].
  split; [intro H; discriminate H|]. split; [reflexivity|].
  apply (@changePassword_then_login string string string "secret1" "secret2"
           "2025-01-03T00:00:00.000Z" aliceLoggedIn
           (AuthManager.SessionUser.mk "Alice" "alice@example.com" "user"
              "2025-01-02T00:00:00.000Z")
           "Password changed successfully" NoDup_alice eq_refl
           ltac:(intro H; discriminate H) eq_refl).
Defined.

Lemma deleteAccount_removes_user_witness :
  NoDup (AuthManager.registeredEmails aliceLoggedIn)
  /\ fst (AuthManager.deleteAccount "secret1" aliceLoggedIn)
     = AuthManager.Success "Account deleted"%string
  /\ ~ In "alice@example.com"%string
         (AuthManager.registeredEmails
            (snd (AuthManager.deleteAccount "secret1" aliceLoggedIn))).
Proof.
  split; [exact NoDup_alice|]. split; [reflexivity|].
  apply (@deleteAccount_removes_user string string string "secret1" aliceLoggedIn
           (AuthManager.SessionUser.mk "Alice" "alice@example.com" "user"
              "2025-01-02T00:00:00.000Z")
           "Account deleted" NoDup_alice eq_refl eq_refl).
Defined.

Lemma deleted_account_data_is_inherited_witness :
  let saved :=
    snd (AuthManager.savePortfolioData "alice's portfolio"%string
           "2025-01-03T00:00:00.000Z" aliceLoggedIn) in
  NoDup (AuthManager.registeredEmails saved)
  /\ fst (AuthManager.deleteAccount "secret1" saved)
     = AuthManager.Success "Account deleted"%string
  /\ "Mallory"%string <> EmptyString
  /\ (6 <= String.length "letmein")%nat
  /\ AuthManager.getPortfolioData
       (snd (AuthManager.login "alice@example.com" "letmein"
               "2025-01-05T00:00:00.000Z"
               (snd (AuthManager.signup "Mallory" "alice@example.com" "letmein"
                       "2025-01-04T00:00:00.000Z"
                       (snd (AuthManager.deleteAccount "secret1" saved))))))
     = Some "alice's portfolio"%string.
Proof.
  cbn zeta. split; [exact NoDup_alice|]. split; [reflexivity|].
  split; [intro H; discriminate H|]. split; [cbn; lia|].
  destruct (@deleted_account_data_is_inherited string string string
              "secret1" "Mallory" "letmein" "2025-01-04T00:00:00.000Z"
              "2025-01-05T00:00:00.000Z"
              (snd (AuthManager.savePortfolioData "alice's portfolio"%string
                      "2025-01-03T00:00:00.000Z" aliceLoggedIn))
              (AuthManager.SessionUser.mk "Alice" "alice@example.com" "user"
                 "2025-01-02T00:00:00.000Z")
              "Account deleted" NoDup_alice eq_refl
              ltac:(intro H; discriminate H) eq_refl
              ltac:(intro H; discriminate H) ltac:(cbn; lia)) as [_ [E _]].
  exact E.
Defined.

Lemma saved_data_roundtrip_witness :
  AuthManager.currentUser aliceLoggedIn
  = Some (AuthManager.SessionUser.mk "Alice" "alice@example.com" "user"
            "2025-01-02T00:00:00.000Z")
  /\ AuthManager.getPortfolioData
       (snd (AuthManager.savePortfolioData "alice's portfolio"%string
               "2025-01-03T00:00:00.000Z" aliceLoggedIn))
     = Some "alice's portfolio"%string.
Proof.
  split; [reflexivity|].
  destruct (@saved_data_roundtrip string string string "alice's portfolio"%string
              [] "2025-01-03T00:00:00.000Z" aliceLoggedIn
              (AuthManager.SessionUser.mk "Alice" "alice@example.com" "user"
                 "2025-01-02T00:00:00.000Z") eq_refl) as [[_ [E _]] _].
  exact E.
Defined.

Lemma updateProfile_renames_witness :
  NoDup (AuthManager.registeredEmails aliceLoggedIn)
  /\ AuthManager.currentUser aliceLoggedIn
     = Some (AuthManager.SessionUser.mk "Alice" "alice@example.com" "user"
               "2025-01-02T00:00:00.000Z")
  /\ In "alice@example.com"%string (AuthManager.registeredEmails aliceLoggedIn)
  /\ fst (AuthManager.updateProfile "Alicia" aliceLoggedIn)
     = AuthManager.Success
         (AuthManager.SessionUser.mk "Alicia" "alice@example.com" "user"
            "2025-01-02T00:00:00.000Z").
Proof.
  split; [exact NoDup_alice|]. split; [reflexivity|].
  split; [left; reflexivity|].
  destruct (@updateProfile_renames string string string "Alicia" aliceLoggedIn
              (AuthManager.SessionUser.mk "Alice" "alice@example.com" "user"
                 "2025-01-02T00:00:00.000Z") NoDup_alice eq_refl) as [S _].
  destruct (S (or_introl eq_refl)) as [E _]. exact E.
Defined.

Lemma saveSettings_merges_witness :
  NoDup (map fst [("theme"%string, "dark"%string)])
  /\ AuthManager.getProp
       (fst (AuthManager.saveSettings [("theme"%string, "dark"%string)]
               freshManager)) "theme"
     = Some "dark"%string.
Proof.
  split; [constructor; [intros [] | constructor]|].
  destruct (@saveSettings_merges string string string
              [("theme"%string, "dark"%string)] freshManager
              ltac:(constructor; [intros [] | constructor])) as [_ E].
  rewrite E. reflexivity.
Defined.
(* ================================================================== *)
(** ** [Utils.getAssetAllocation] and [Utils.isValidEmail] *)
(* ================================================================== *)

Section StringFacts.

#[local] Open Scope string_scope.

Lemma lowerChar_idempotent (c : ascii) :
  Utils.lowerChar (Utils.lowerChar c) = Utils.lowerChar c.
Proof.
  destruct c as [[] [] [] [] [] [] [] []]; vm_compute; reflexivity.
Qed.

Lemma toLowerCase_idempotent (s : string) :
  Utils.toLowerCase (Utils.toLowerCase s) = Utils.toLowerCase s.
Proof.
  induction s as [|c s IH]; cbn [Utils.toLowerCase]; [reflexivity|].
  now rewrite lowerChar_idempotent, IH.
Qed.

(** The allocation of a risk profile.  The profile is looked up without
    regard to case.  Unless its lower-case form is "constructor" or
    "__proto__", the result is an allocation whose equity, debt and cash
    add up to 100, and it is the moderate one for every name other than
    conservative, growth and aggressive.  For "constructor" and
    "__proto__" the lookup finds the member inherited from
    [Object.prototype], which is not an allocation. *)
Theorem getAssetAllocation_result (riskProfile : string) :
  let key := Utils.toLowerCase riskProfile in
  Utils.getAssetAllocation (Utils.toLowerCase riskProfile)
  = Utils.getAssetAllocation riskProfile
  /\ (key = "constructor" ->
      Utils.getAssetAllocation riskProfile = Utils.ObjectConstructor)
  /\ (key = "__proto__" ->
      Utils.getAssetAllocation riskProfile = Utils.ObjectPrototype)
  /\ (key <> "constructor" -> key <> "__proto__" ->
      exists a : Utils.Allocation.t,
        Utils.getAssetAllocation riskProfile = Utils.OwnAllocation a
        /\ add (add (Utils.Allocation.equity a) (Utils.Allocation.debt a))
               (Utils.Allocation.cash a) = ofZ 100
        /\ (key <> "conservative" -> key <> "growth" -> key <> "aggressive" ->
            a = Utils.Allocation.mk (ofZ 55) (ofZ 35) (ofZ 10))).
Proof.
  intro key. unfold Utils.getAssetAllocation.
  rewrite toLowerCase_idempotent. fold key. split; [reflexivity|].
  unfold Utils.allocations.
  destruct (String.eqb_spec key "conservative") as [E1|E1].
  { rewrite E1. repeat split; try discriminate.
    intros _ _. eexists. split; [reflexivity|]. split; [reflexivity|]. tauto. }
  destruct (String.eqb_spec key "moderate") as [E2|E2].
  { rewrite E2. repeat split; try discriminate.
    intros _ _. eexists. split; [reflexivity|]. split; reflexivity. }
  destruct (String.eqb_spec key "growth") as [E3|E3].
  { rewrite E3. repeat split; try discriminate.
    intros _ _. eexists. split; [reflexivity|]. split; [reflexivity|]. tauto. }
  destruct (String.eqb_spec key "aggressive") as [E4|E4].
  { rewrite E4. repeat split; try discriminate.
    intros _ _. eexists. split; [reflexivity|]. split; [reflexivity|]. tauto. }
  destruct (String.eqb_spec key "constructor") as [E5|E5].
  { rewrite E5. repeat split; try discriminate. tauto. }
  destruct (String.eqb_spec key "__proto__") as [E6|E6].
  { rewrite E6. repeat split; try discriminate. tauto. }
  repeat split; try tauto.
  intros _ _. eexists. split; [reflexivity|]. split; reflexivity.
Qed.

(** *** The pattern matcher *)

Lemma append_nil_r (s : string) : s ++ EmptyString = s.
Proof. induction s as [|c s IH]; cbn; [reflexivity | now rewrite IH]. Qed.

Lemma append_assoc (a b c : string) : (a ++ b) ++ c = a ++ (b ++ c).
Proof. induction a as [|x a IH]; cbn; [reflexivity | now rewrite IH]. Qed.

Lemma nullable_spec (r : Utils.regex) :
  Utils.nullable r = true <-> Matches r EmptyString.
Proof.
  induction r as [| |p|r1 IH1 r2 IH2|r1 IH1 r2 IH2|r IH]; cbn [Utils.nullable].
  - split; [discriminate | intro H; inversion H].
  - split; [constructor | reflexivity].
  - split; [discriminate | intro H; inversion H].
  - rewrite Bool.andb_true_iff, IH1, IH2. split.
    + intros [H1 H2]. change EmptyString with (EmptyString ++ EmptyString).
      now constructor.
    + intro H. inversion H as [| |? ? s1 s2 H1 H2 E| | | |]; subst.
      destruct s1; [|discriminate]. destruct s2; [|discriminate]. auto.
  - rewrite Bool.orb_true_iff, IH1, IH2. split.
    + intros [H|H]; [now apply MatchesAltL | now apply MatchesAltR].
    + intro H. inversion H; subst; auto.
  - split; [constructor | reflexivity].
Qed.

Lemma derivative_sound (c : ascii) (r : Utils.regex) (s : string) :
  Matches (Utils.derivative c r) s -> Matches r (String c s).
Proof.
  revert s.
  induction r as [| |p|r1 IH1 r2 IH2|r1 IH1 r2 IH2|r IH]; intros s H;
    cbn [Utils.derivative] in H.
  - inversion H.
  - inversion H.
  - destruct (p c) eqn:P; inversion H; subst. now constructor.
  - destruct (Utils.nullable r1) eqn:N.
    + inversion H as [| | |? ? ? HL|? ? ? HR| |]; subst.
      * inversion HL as [| |? ? s1 s2 H1 H2| | | |]; subst.
        change (String c (s1 ++ s2)) with (String c s1 ++ s2).
        constructor; [now apply IH1 | exact H2].
      * change (String c s) with (EmptyString ++ String c s).
        constructor; [now apply nullable_spec | now apply IH2].
    + inversion H as [| |? ? s1 s2 H1 H2| | | |]; subst.
      change (String c (s1 ++ s2)) with (String c s1 ++ s2).
      constructor; [now apply IH1 | exact H2].
  - inversion H; subst; [apply MatchesAltL | apply MatchesAltR]; auto.
  - inversion H as [| |? ? s1 s2 H1 H2| | | |]; subst.
    change (String c (s1 ++ s2)) with (String c s1 ++ s2).
    constructor; [now apply IH | exact H2].
Qed.

Lemma derivative_complete (c : ascii) (r : Utils.regex) (s : string) :
  Matches r (String c s) -> Matches (Utils.derivative c r) s.
Proof.
  intro H. remember (String c s) as t eqn:E. revert s E.
  induction H as [|p x P|r1 r2 s1 s2 H1 IH1 H2 IH2|r1 r2 t H IH|r1 r2 t H IH
                  |r|r s1 s2 H1 IH1 H2 IH2]; intros s E;
    cbn [Utils.derivative].
  - discriminate E.
  - injection E as -> <-. rewrite P. constructor.
  - destruct s1 as [|y s1'].
    + cbn in E. subst s2.
      rewrite (proj2 (nullable_spec r1) H1). apply MatchesAltR. now apply IH2.
    + cbn in E. injection E as -> <-.
      destruct (Utils.nullable r1);
        [apply MatchesAltL|]; (constructor; [now apply IH1 | exact H2]).
  - apply MatchesAltL. now apply IH.
  - apply MatchesAltR. now apply IH.
  - discriminate E.
  - destruct s1 as [|y s1'].
    + cbn in E. now apply IH2.
    + cbn in E. injection E as -> <-.
      constructor; [now apply IH1 | exact H2].
Qed.

Lemma testAnchored_spec (r : Utils.regex) (s : string) :
  Utils.testAnchored r s = true <-> Matches r s.
Proof.
  revert r. induction s as [|c s IH]; intro r; cbn [Utils.testAnchored].
  - apply nullable_spec.
  - rewrite IH. split; [apply derivative_sound | apply derivative_complete].
Qed.

Lemma matches_star_class (p : ascii -> bool) (s : string) :
  Matches (Utils.Star (Utils.Class p)) s <-> allChars p s = true.
Proof.
  split.
  - intro H. remember (Utils.Star (Utils.Class p)) as r eqn:E.
    induction H as [| | | | | |r' s1 s2 H1 _ H2 IH2]; try discriminate E.
    + reflexivity.
    + injection E as ->. inversion H1; subst. cbn.
      apply Bool.andb_true_iff. split; [assumption | now apply IH2].
  - induction s as [|c s IH]; cbn [allChars]; intro H.
    + constructor.
    + apply Bool.andb_true_iff in H. destruct H as [P A].
      change (String c s) with (String c EmptyString ++ s).
      constructor; [now constructor | now apply IH].
Qed.

Lemma matches_plus_class (p : ascii -> bool) (s : string) :
  Matches (Utils.Plus (Utils.Class p)) s
  <-> s <> EmptyString /\ allChars p s = true.
Proof.
  unfold Utils.Plus. split.
  - intro H. inversion H as [| |? ? s1 s2 H1 H2| | | |]; subst.
    inversion H1; subst. apply matches_star_class in H2. cbn.
    split; [discriminate|]. apply Bool.andb_true_iff. auto.
  - intros [N A]. destruct s as [|c s]; [contradiction|].
    cbn in A. apply Bool.andb_true_iff in A. destruct A as [P A].
    change (String c s) with (String c EmptyString ++ s).
    constructor; [now constructor | now apply matches_star_class].
Qed.

Lemma matches_char (c : ascii) (s : string) :
  Matches (Utils.Class (Ascii.eqb c)) s <-> s = String c EmptyString.
Proof.
  split.
  - intro H. inversion H as [|? x P| | | | |]; subst.
    apply Ascii.eqb_eq in P. now subst.
  - intros ->. constructor. apply Ascii.eqb_refl.
Qed.

(** [isValidEmail] accepts exactly the texts of the form
    local@domain.tld in which local, domain and tld are not empty and
    contain neither white space nor "@" (dots are allowed in all three):
    so an accepted email has exactly one "@", no white space, and a dot
    after the "@" with at least one character on each side. *)
Theorem isValidEmail_iff (email : string) :
  Utils.isValidEmail email = true
  <-> exists local domain tld : string,
        email = local ++ "@" ++ domain ++ "." ++ tld
        /\ local <> EmptyString /\ domain <> EmptyString /\ tld <> EmptyString
        /\ allChars Utils.notSpaceNorAt local = true
        /\ allChars Utils.notSpaceNorAt domain = true
        /\ allChars Utils.notSpaceNorAt tld = true.
Proof.
  unfold Utils.isValidEmail. rewrite testAnchored_spec. unfold Utils.emailPattern.
  split.
  - intro H.
    inversion H as [| |? ? a s1 Ha H1| | | |]; subst.
    inversion H1 as [| |? ? at_ s2 Hat H2| | | |]; subst.
    inversion H2 as [| |? ? b s3 Hb H3| | | |]; subst.
    inversion H3 as [| |? ? dot c Hdot Hc| | | |]; subst.
    apply matches_plus_class in Ha, Hb, Hc.
    apply matches_char in Hat, Hdot. subst.
    exists a, b, c. tauto.
  - intros [a [b [c [-> [Na [Nb [Nc [Aa [Ab Ac]]]]]]]]].
    constructor; [now apply matches_plus_class|].
    constructor; [now apply matches_char|].
    constructor; [now apply matches_plus_class|].
    constructor; [now apply matches_char | now apply matches_plus_class].
Qed.

End StringFacts.
